(** * Pathfinder: error-simulation API and browser error interceptor

  A shallow embedding of
    - PathfinderApi/Controllers/ErrorSimulationController.cs
    - PathfinderApi/Controllers/HealthController.cs
    - the exception middleware of PathfinderApi/Program.cs
    - pathfinder-ui/src/app/app.component.ts and error.service.ts
    - pathfinder-ui/src/app/global-error-handler.ts
  together with the properties the specification states about them.
  (Program.cs and error.service.ts are kept in the repository copy as the
  later parts of pathfinder-ui-zoneless/src/app/app.config.ts.)

  C# request handlers are written in a small state-and-exception monad
  over a [World] (activities, logs, library calls made); the TypeScript
  code is written as state passing over the component's two catalogs and
  over the browser window (listeners, timers, exported spans). *)

From Stdlib Require Import ZArith NArith Lia Ascii String List.
From stdpp Require Import base list strings pretty gmap.
Import ListNotations.

Local Open Scope string_scope.

(* ================================================================== *)
(** * System.Diagnostics: trace ids and activities                     *)
(* ================================================================== *)

Module Diagnostics.

(** [ActivityTraceId]: a 16-byte value, kept as a number below 2^128. *)
Definition ActivityTraceId := N.

Definition hex_digit (d : N) : ascii :=
  match d with
  | 0%N => "0" | 1%N => "1" | 2%N => "2" | 3%N => "3"
  | 4%N => "4" | 5%N => "5" | 6%N => "6" | 7%N => "7"
  | 8%N => "8" | 9%N => "9" | 10%N => "a" | 11%N => "b"
  | 12%N => "c" | 13%N => "d" | 14%N => "e" | _ => "f"
  end%char.

(** The [digits] low hexadecimal digits of [v], most significant first,
    in front of [acc]. *)
Fixpoint to_hex (digits : nat) (v : N) (acc : string) : string :=
  match digits with
  | O => acc
  | S k => to_hex k (v / 16)%N (String (hex_digit (v mod 16)%N) acc)
  end.

(** [ActivityTraceId.ToString()]: 32 lower-case hexadecimal characters. *)
Definition TraceId_ToString (t : ActivityTraceId) : string :=
  to_hex 32 t EmptyString.

Inductive ActivityStatusCode := Unset | Ok | Error.

Inductive TagValue :=
| TagString (s : string)
| TagInt (z : Z).

Definition ActivityTagsCollection := list (string * TagValue).

Record ActivityEvent := mkEvent {
  EventName : string;
  EventTags : ActivityTagsCollection
}.

(** An activity (span).  [Parent] is a handle into the store. *)
Record Activity := mkActivity {
  OperationName : string;
  TraceId : ActivityTraceId;
  Parent : option nat;
  Status : ActivityStatusCode;
  StatusDescription : option string;
  Tags : ActivityTagsCollection;
  Events : list ActivityEvent;
  IsStopped : bool
}.

Definition SetStatus (c : ActivityStatusCode) (d : string) (a : Activity) : Activity :=
  mkActivity (OperationName a) (TraceId a) (Parent a) c (Some d)
             (Tags a) (Events a) (IsStopped a).

Definition AddEvent (e : ActivityEvent) (a : Activity) : Activity :=
  mkActivity (OperationName a) (TraceId a) (Parent a) (Status a)
             (StatusDescription a) (Tags a) (Events a ++ [e])%list (IsStopped a).

Definition SetTag (k : string) (v : TagValue) (a : Activity) : Activity :=
  mkActivity (OperationName a) (TraceId a) (Parent a) (Status a)
             (StatusDescription a) (Tags a ++ [(k, v)])%list (Events a) (IsStopped a).

Definition Stop (a : Activity) : Activity :=
  mkActivity (OperationName a) (TraceId a) (Parent a) (Status a)
             (StatusDescription a) (Tags a) (Events a) true.

End Diagnostics.

(* ================================================================== *)
(** * The backend: PathfinderApi                                       *)
(* ================================================================== *)

Module Api.
Import Diagnostics.

(** ** Values the handlers exchange with the runtime *)

(** A thrown .NET exception: [GetType().FullName], [GetType().Name],
    [Message] (never null for the runtime's exceptions) and [StackTrace]
    (null until the exception has been thrown). *)
Record Exception := mkException {
  TypeFullName : string;
  TypeName : string;
  Message : string;
  StackTrace : option string
}.

Inductive LogLevel := Information | Warning | LogError | Fatal.

Inductive LogArg := ArgString (s : string) | ArgInt (z : Z).

Record LogEntry := mkLog {
  Level : LogLevel;
  Logged : option Exception;
  Template : string;
  Args : list LogArg
}.

Inductive JsonValue :=
| JNull
| JString (s : string)
| JNumber (z : Z)
| JDateTime (ticks : Z).

(** What an action result carries: an anonymous object written as a JSON
    object with its properties in declaration order, or a plain string. *)
Inductive Payload :=
| PObject (fields : list (string * JsonValue))
| PText (s : string).

Record Response := mkResponse {
  StatusCode : Z;
  Body : option Payload
}.

Inductive HttpOutcome :=
| HttpAnswered (status : Z)
| HttpFailed (ex : Exception).

(** Calls into the runtime that leave no value behind but matter to the
    simulations; each handler appends the ones it makes. *)
Inductive Op :=
| OpDelay (ms : Z)
| OpHttpGet (url : string) (timeoutSeconds : Z)
| OpSerialize (root : nat)
| OpAlloc (bytes : Z)
| OpClear (blocks : nat)
| OpGcCollect
| OpNextDouble.

(** What the handlers read from their surroundings and cannot change. *)
Record Env := mkEnv {
  ambient : option ActivityTraceId; (* trace of the request activity, if the host made one *)
  listening : bool;                 (* is the "PathfinderApi" source sampled *)
  freshTraceId : ActivityTraceId;   (* id drawn for an activity without parent *)
  stackTraceAt : string -> string;  (* stack trace text the runtime attaches at a throw site *)
  httpGet : string -> HttpOutcome;  (* what the network does with a GET *)
  stopwatch : nat -> Z;             (* n-th reading of the stopwatch, in 100ns ticks *)
  utcNow : Z                        (* DateTime.UtcNow, in ticks *)
}.

Record World := mkWorld {
  activities : list Activity;  (* the store; a handle is an index *)
  current : option nat;        (* Activity.Current *)
  logs : list LogEntry;
  ops : list Op;
  reads : nat;                 (* stopwatch readings taken so far *)
  data : list Z                (* MemorySpike's List<byte[]>: the size of each array it holds *)
}.

Definition initial (env : Env) : World :=
  match ambient env with
  | Some t =>
      mkWorld [mkActivity "Microsoft.AspNetCore.Hosting.HttpRequestIn" t None
                          Unset None [] [] false]
              (Some 0%nat) [] [] 0 []
  | None => mkWorld [] None [] [] 0 []
  end.

(** ** The monad: state, exceptions, and fuel for the one loop that waits *)

Inductive Outcome (A : Type) :=
| Done (a : A)
| Raised (ex : Exception)
| Diverged.
Arguments Done {A} a.
Arguments Raised {A} ex.
Arguments Diverged {A}.

Definition M (A : Type) := World -> Outcome A * World.

Definition ret {A} (a : A) : M A := fun w => (Done a, w).

Definition bind {A B} (m : M A) (k : A -> M B) : M B :=
  fun w =>
    match m w with
    | (Done a, w') => k a w'
    | (Raised ex, w') => (Raised ex, w')
    | (Diverged, w') => (Diverged, w')
    end.

Notation "'do' x <- m ; k" := (bind m (fun x => k))
  (at level 10, x name, m at level 100, k at level 200).

(** [throw] at a site: the runtime fills in the stack trace. *)
Definition throw {A} (env : Env) (site : string) (ex : Exception) : M A :=
  fun w => (Raised (mkException (TypeFullName ex) (TypeName ex) (Message ex)
                                (Some (stackTraceAt env site))), w).

(** [try { body } catch (Exception ex) { handler }] *)
Definition try_catch {A} (body : M A) (handler : Exception -> M A) : M A :=
  fun w =>
    match body w with
    | (Raised ex, w') => handler ex w'
    | r => r
    end.

(** [try { body } finally { fin }] *)
Definition try_finally {A} (body : M A) (fin : M unit) : M A :=
  fun w =>
    match body w with
    | (Diverged, w') => (Diverged, w')
    | (r, w') =>
        match fin w' with
        | (Done _, w'') => (r, w'')
        | (Raised ex, w'') => (Raised ex, w'')
        | (Diverged, w'') => (Diverged, w'')
        end
    end.

Definition modify (f : World -> World) : M unit := fun w => (Done tt, f w).

Definition get_current : M (option nat) := fun w => (Done (current w), w).

Definition set_activities (l : list Activity) (w : World) : World :=
  mkWorld l (current w) (logs w) (ops w) (reads w) (data w).
Definition set_current (c : option nat) (w : World) : World :=
  mkWorld (activities w) c (logs w) (ops w) (reads w) (data w).
Definition add_log (e : LogEntry) (w : World) : World :=
  mkWorld (activities w) (current w) (logs w ++ [e])%list (ops w) (reads w) (data w).
Definition add_op (o : Op) (w : World) : World :=
  mkWorld (activities w) (current w) (logs w) (ops w ++ [o])%list (reads w) (data w).
Definition tick (w : World) : World :=
  mkWorld (activities w) (current w) (logs w) (ops w) (S (reads w)) (data w).
Definition set_data (d : list Z) (w : World) : World :=
  mkWorld (activities w) (current w) (logs w) (ops w) (reads w) d.

Definition log (l : LogLevel) (ex : option Exception) (t : string)
           (a : list LogArg) : M unit :=
  modify (add_log (mkLog l ex t a)).

Definition op (o : Op) : M unit := modify (add_op o).

(** ** Activities as the handlers use them *)

(** [ActivitySource.StartActivity(name)]: null unless a listener samples
    the source; otherwise a child of [Activity.Current] (same trace), or a
    root with a fresh trace id, which becomes [Activity.Current]. *)
Definition StartActivity (env : Env) (name : string) : M (option nat) :=
  fun w =>
    if listening env then
      let t := match current w with
               | Some p => match activities w !! p with
                           | Some a => TraceId a
                           | None => freshTraceId env
                           end
               | None => freshTraceId env
               end in
      let h := length (activities w) in
      (Done (Some h),
       set_current (Some h)
         (set_activities
            (activities w ++ [mkActivity name t (current w) Unset None [] [] false])%list w))
    else (Done None, w).

(** [activity?.f(...)]: nothing happens on null. *)
Definition on_activity (a : option nat) (f : Activity -> Activity) : M unit :=
  match a with
  | Some h => modify (fun w => set_activities (alter f h (activities w)) w)
  | None => ret tt
  end.

(** End of a [using var activity] scope: the activity stops and its parent
    becomes current again. *)
Definition Dispose (a : option nat) : M unit :=
  match a with
  | Some h =>
      modify (fun w =>
        set_current (match activities w !! h with
                     | Some x => Parent x
                     | None => None
                     end)
                    (set_activities (alter Stop h (activities w)) w))
  | None => ret tt
  end.

Definition using_activity {A} (env : Env) (name : string)
           (body : option nat -> M A) : M A :=
  do a <- StartActivity env name;
  try_finally (body a) (Dispose a).

(** [activity?.TraceId.ToString()] *)
Definition trace_id_of (a : option nat) : M JsonValue :=
  fun w =>
    (Done match a with
          | Some h => match activities w !! h with
                      | Some x => JString (TraceId_ToString (TraceId x))
                      | None => JNull
                      end
          | None => JNull
          end, w).

(** [Activity.Current?.TraceId.ToString()] *)
Definition current_trace_id : M JsonValue :=
  do a <- get_current;
  trace_id_of a.

(** The "exception" event every catch block attaches. *)
Definition exception_event (ex : Exception) : ActivityEvent :=
  mkEvent "exception"
    [("exception.type", TagString (TypeFullName ex));
     ("exception.message", TagString (Message ex));
     ("exception.stacktrace",
      TagString (match StackTrace ex with Some s => s | None => EmptyString end))].

Definition record_exception (a : option nat) (ex : Exception) : M unit :=
  do _ <- on_activity a (SetStatus Error (Message ex));
  on_activity a (AddEvent (exception_event ex)).

(** ** ControllerBase helpers *)

Definition envelope (error message : string) (traceId : JsonValue) : Payload :=
  PObject [("error", JString error); ("message", JString message);
           ("traceId", traceId)].

Definition StatusCodeResult (code : Z) (p : Payload) : Response :=
  mkResponse code (Some p).
Definition OkObject (p : Payload) : Response := mkResponse 200 (Some p).
Definition OkEmpty : Response := mkResponse 200 None.
Definition Unauthorized (p : Payload) : Response := mkResponse 401 (Some p).

(** ** Runtime pieces the handlers call *)

(** An exception the libraries throw arrives with its stack trace. *)
Definition raise {A} (ex : Exception) : M A := fun w => (Raised ex, w).

Definition NullReferenceException : Exception :=
  mkException "System.NullReferenceException" "NullReferenceException"
              "Object reference not set to an instance of an object." None.

Definition InvalidOperationException (message : string) : Exception :=
  mkException "System.InvalidOperationException" "InvalidOperationException"
              message None.

Definition PlainException (message : string) : Exception :=
  mkException "System.Exception" "Exception" message None.

(** The serializer's exception; the runtime's message goes on with advice
    and the path reached. *)
Definition JsonException : Exception :=
  mkException "System.Text.Json.JsonException" "JsonException"
              "A possible object cycle was detected. This can either be due to a cycle or if the object depth is larger than the maximum allowed depth of 64."
              None.

(** [value.Length] on a [string?]. *)
Definition string_Length (env : Env) (site : string) (value : option string) : M Z :=
  match value with
  | Some s => ret (Z.of_nat (String.length s))
  | None => throw env site NullReferenceException
  end.

(** [Task.Delay(ms)] awaited. *)
Definition Task_Delay (ms : Z) : M unit := op (OpDelay ms).

(** [client.Timeout = timeout; await client.GetAsync(url)]: the answer's
    status code, or the exception of a failed or timed-out call. *)
Definition GetAsync (env : Env) (timeoutSeconds : Z) (url : string) : M Z :=
  do _ <- op (OpHttpGet url timeoutSeconds);
  match httpGet env url with
  | HttpAnswered status => ret status
  | HttpFailed ex => raise ex
  end.

(** The stopwatch, started at zero when the handler creates it. *)
Definition Elapsed (env : Env) : M Z :=
  fun w => (Done (stopwatch env (reads w)), tick w).

Definition TicksPerSecond : Z := 10000000.
Definition TicksPerMillisecond : Z := 10000.

Definition ElapsedMilliseconds (env : Env) : M Z :=
  do t <- Elapsed env;
  ret (t / TicksPerMillisecond)%Z.

(** [CircularRef], the helper class of the controller; [Ref] is a handle
    into the heap the handler builds. *)
Record CircularRef := mkCircularRef {
  Name : string;
  Ref : option nat
}.

Definition set_Ref (r : option nat) (o : CircularRef) : CircularRef :=
  mkCircularRef (Name o) r.

Definition new_CircularRef (o : CircularRef) (heap : list CircularRef)
  : nat * list CircularRef :=
  (length heap, (heap ++ [o])%list).

Definition quoted (s : string) : string :=
  String "034"%char (s ++ String "034"%char EmptyString).

(** [System.Text.Json] with default options: properties in declaration
    order, no reference handling, and a [JsonException] once the nesting
    passes [MaxDepth] (64 by default).  [None] stands for that exception.
    Names are written as they are (no character of "A" or "B" needs an
    escape). *)
Fixpoint write_object (heap : list CircularRef) (depth : nat) (r : nat)
  : option string :=
  match depth with
  | O => None
  | S d =>
      match heap !! r with
      | None => Some "null"
      | Some o =>
          match match Ref o with
                | None => Some "null"
                | Some r' => write_object heap d r'
                end with
          | Some inner =>
              Some ("{" ++ quoted "Name" ++ ":" ++ quoted (Name o) ++ ","
                        ++ quoted "Ref" ++ ":" ++ inner ++ "}")
          | None => None
          end
      end
  end.

Definition MaxDepth : nat := 64.

Definition JsonSerializer_Serialize (env : Env) (heap : list CircularRef)
           (root : nat) : M string :=
  do _ <- op (OpSerialize root);
  match write_object heap MaxDepth root with
  | Some json => ret json
  | None => throw env "JsonSerializer.Serialize" JsonException
  end.

(** [for (int i = lo; i < lo + n; i++) body(i)] *)
Fixpoint for_loop (lo n : nat) (body : nat -> M unit) : M unit :=
  match n with
  | O => ret tt
  | S k => do _ <- body lo; for_loop (S lo) k body
  end.

(** [data.Add(new byte[bytes])]; the allocation is taken to succeed. *)
Definition data_Add (bytes : Z) : M unit :=
  do _ <- op (OpAlloc bytes);
  modify (fun w => set_data (data w ++ [bytes])%list w).

Definition data_Count : M Z := fun w => (Done (Z.of_nat (length (data w))), w).

Definition data_Clear : M unit :=
  fun w => (Done tt, set_data [] (add_op (OpClear (length (data w))) w)).

(** ** ErrorSimulationController *)

Definition UnhandledException (env : Env) : M Response :=
  using_activity env "SimulateUnhandledException" (fun activity =>
    do _ <- log Information None "Triggering unhandled NullReferenceException" [];
    let value : option string := None in
    do _ <- string_Length env "UnhandledException" value;
    ret OkEmpty).

Definition HandledException (env : Env) : M Response :=
  using_activity env "SimulateHandledException" (fun activity =>
    try_catch
      (throw env "HandledException"
             (InvalidOperationException "Simulated handled exception"))
      (fun ex =>
         do _ <- record_exception activity ex;
         do _ <- log LogError (Some ex) "Handled exception occurred" [];
         do t <- current_trace_id;
         ret (StatusCodeResult 500 (envelope "HandledException" (Message ex) t)))).

Definition SqlError (env : Env) : M Response :=
  using_activity env "SimulateSqlError" (fun activity =>
    try_catch
      (throw env "SqlError"
             (PlainException "Database connection failed: Unable to connect to server 'db-server:5432'. Connection refused."))
      (fun ex =>
         do _ <- record_exception activity ex;
         do _ <- on_activity activity (SetTag "db.system" (TagString "postgresql"));
         do _ <- on_activity activity
                   (SetTag "db.statement" (TagString "SELECT * FROM users WHERE id = @id"));
         do _ <- log LogError (Some ex) "Database error occurred" [];
         do t <- current_trace_id;
         ret (StatusCodeResult 500 (envelope "DatabaseError" (Message ex) t)))).

Definition Timeout (env : Env) : M Response :=
  using_activity env "SimulateTimeout" (fun activity =>
    do _ <- on_activity activity (SetTag "timeout.duration_ms" (TagInt 30000));
    do _ <- log Warning None "Starting 30-second timeout simulation" [];
    do _ <- Task_Delay 30000;
    ret (OkObject (PObject [("message", JString "Completed after timeout delay")]))).

(** [while (sw.Elapsed.TotalSeconds < 3) { _ = Math.Sqrt(Random.Shared.NextDouble()); }]
    [TotalSeconds] is the tick count over [TicksPerSecond]; 3.0 is exact, so
    the test is a comparison of ticks.  The loop has no bound of its own:
    [fuel] bounds the iterations the model follows. *)
Fixpoint busy_wait (env : Env) (fuel : nat) : M unit :=
  match fuel with
  | O => fun w => (Diverged, w)
  | S k =>
      do t <- Elapsed env;
      if (t <? 3 * TicksPerSecond)%Z
      then do _ <- op OpNextDouble; busy_wait env k
      else ret tt
  end.

Definition CpuSpike (env : Env) (fuel : nat) : M Response :=
  using_activity env "SimulateCpuSpike" (fun activity =>
    do _ <- on_activity activity (SetTag "cpu.duration_seconds" (TagInt 3));
    do _ <- log Warning None "Starting CPU spike simulation (3 seconds)" [];
    do _ <- busy_wait env fuel;
    do _ <- match activity with
            | Some _ =>
                do ms <- ElapsedMilliseconds env;
                on_activity activity (SetTag "cpu.actual_duration_ms" (TagInt ms))
            | None => ret tt
            end;
    do ms <- ElapsedMilliseconds env;
    do _ <- log Information None "CPU spike completed after {Duration}ms" [ArgInt ms];
    do ms <- ElapsedMilliseconds env;
    do t <- current_trace_id;
    ret (OkObject (PObject [("message", JString "CPU spike simulation completed");
                            ("durationMs", JNumber ms);
                            ("traceId", t)]))).

Definition MemorySpike (env : Env) : M Response :=
  using_activity env "SimulateMemorySpike" (fun activity =>
    do _ <- log Warning None "Starting memory spike simulation" [];
    do _ <- modify (set_data []);
    do _ <- try_finally
              (do _ <- for_loop 0 50 (fun i => data_Add (10 * 1024 * 1024));
               do n <- data_Count;
               do _ <- on_activity activity
                         (SetTag "memory.allocated_mb" (TagInt (n * 10)));
               do n <- data_Count;
               log Information None "Allocated {Count}MB" [ArgInt (n * 10)])
              (do _ <- data_Clear;
               op OpGcCollect);
    do t <- current_trace_id;
    ret (OkObject (PObject [("message", JString "Memory spike simulation completed");
                            ("allocatedMb", JNumber 500);
                            ("traceId", t)]))).

Definition dependency_url : string := "http://unreachable-service.local:9999/api/data".

Definition DependencyFailure (env : Env) : M Response :=
  using_activity env "SimulateDependencyFailure" (fun activity =>
    do _ <- on_activity activity (SetTag "dependency.url" (TagString dependency_url));
    do _ <- log Warning None "Calling unreachable dependency" [];
    try_catch
      (do response <- GetAsync env 5 dependency_url;
       ret OkEmpty)
      (fun ex =>
         do _ <- record_exception activity ex;
         do _ <- log LogError (Some ex) "Dependency call failed" [];
         do t <- current_trace_id;
         ret (StatusCodeResult 502 (envelope "DependencyFailure" (Message ex) t)))).

(** [var a = new CircularRef { Name = "A" };]
    [var b = new CircularRef { Name = "B", Ref = a };]
    [a.Ref = b;]   The handle of [a] and the heap holding both. *)
Definition circular_pair : nat * list CircularRef :=
  let '(a, heap) := new_CircularRef (mkCircularRef "A" None) [] in
  let '(b, heap) := new_CircularRef (mkCircularRef "B" (Some a)) heap in
  (a, alter (set_Ref (Some b)) a heap).

Definition SerializationError (env : Env) : M Response :=
  using_activity env "SimulateSerializationError" (fun activity =>
    do _ <- log Warning None "Triggering serialization error with circular reference" [];
    try_catch
      (let '(a, heap) := circular_pair in
       do json <- JsonSerializer_Serialize env heap a;
       ret (OkObject (PText json)))
      (fun ex =>
         do _ <- record_exception activity ex;
         do _ <- log LogError (Some ex) "Serialization failed" [];
         do t <- current_trace_id;
         ret (StatusCodeResult 500 (envelope "SerializationError" (Message ex) t)))).

Definition AuthFailure (env : Env) : M Response :=
  using_activity env "SimulateAuthFailure" (fun activity =>
    do _ <- on_activity activity (SetTag "auth.type" (TagString "Bearer"));
    do _ <- on_activity activity (SetStatus Error "Unauthorized");
    do _ <- log Warning None "Simulating authentication failure (401)" [];
    do t <- current_trace_id;
    ret (Unauthorized (envelope "Unauthorized"
                                "Invalid or missing authentication token" t))).

Definition Forbidden (env : Env) : M Response :=
  using_activity env "SimulateForbidden" (fun activity =>
    do _ <- on_activity activity (SetTag "auth.type" (TagString "Bearer"));
    do _ <- on_activity activity (SetTag "auth.required_role" (TagString "Admin"));
    do _ <- on_activity activity (SetStatus Error "Forbidden");
    do _ <- log Warning None "Simulating authorization failure (403)" [];
    do t <- current_trace_id;
    ret (StatusCodeResult 403
           (envelope "Forbidden"
              "You do not have permission to access this resource. Required role: Admin"
              t))).

Definition SlowResponse (env : Env) : M Response :=
  using_activity env "SimulateSlowResponse" (fun activity =>
    do _ <- on_activity activity (SetTag "delay.duration_ms" (TagInt 5000));
    do _ <- log Information None "Starting slow response (5-second delay)" [];
    do _ <- Task_Delay 5000;
    do _ <- log Information None "Slow response completed" [];
    do t <- current_trace_id;
    ret (OkObject (PObject [("message", JString "Slow response completed after 5 seconds");
                            ("delayMs", JNumber 5000);
                            ("traceId", t)]))).

(** ** HealthController *)

Definition Get (env : Env) : M Response :=
  using_activity env "HealthCheck" (fun activity =>
    do _ <- on_activity activity (SetTag "health.status" (TagString "ok"));
    do t <- current_trace_id;
    ret (OkObject (PObject [("status", JString "healthy");
                            ("timestamp", JDateTime (utcNow env));
                            ("traceId", t)]))).

(** ** Program.cs: the exception middleware in front of the controllers *)

Inductive Endpoint :=
| EpHealth
| EpUnhandledException
| EpHandledException
| EpSqlError
| EpTimeout
| EpCpuSpike
| EpMemorySpike
| EpDependencyFailure
| EpSerializationError
| EpAuthFailure
| EpForbidden
| EpSlowResponse.

Definition all_endpoints : list Endpoint :=
  [EpHealth; EpUnhandledException; EpHandledException; EpSqlError; EpTimeout;
   EpCpuSpike; EpMemorySpike; EpDependencyFailure; EpSerializationError;
   EpAuthFailure; EpForbidden; EpSlowResponse].

(** The route attributes. *)
Definition path (e : Endpoint) : string :=
  match e with
  | EpHealth => "/api/health"
  | EpUnhandledException => "/api/errors/unhandled-exception"
  | EpHandledException => "/api/errors/handled-exception"
  | EpSqlError => "/api/errors/sql-error"
  | EpTimeout => "/api/errors/timeout"
  | EpCpuSpike => "/api/errors/cpu-spike"
  | EpMemorySpike => "/api/errors/memory-spike"
  | EpDependencyFailure => "/api/errors/dependency-failure"
  | EpSerializationError => "/api/errors/serialization-error"
  | EpAuthFailure => "/api/errors/auth-failure"
  | EpForbidden => "/api/errors/forbidden"
  | EpSlowResponse => "/api/errors/slow-response"
  end.

(** [app.MapControllers()] *)
Definition controllers (env : Env) (fuel : nat) (e : Endpoint) : M Response :=
  match e with
  | EpHealth => Get env
  | EpUnhandledException => UnhandledException env
  | EpHandledException => HandledException env
  | EpSqlError => SqlError env
  | EpTimeout => Timeout env
  | EpCpuSpike => CpuSpike env fuel
  | EpMemorySpike => MemorySpike env
  | EpDependencyFailure => DependencyFailure env
  | EpSerializationError => SerializationError env
  | EpAuthFailure => AuthFailure env
  | EpForbidden => Forbidden env
  | EpSlowResponse => SlowResponse env
  end.

(** [app.Use(async (context, next) => { try { await next(context); } catch ... })] *)
Definition exception_handler (requestPath : string) (next : M Response) : M Response :=
  try_catch next
    (fun ex =>
       do activity <- get_current;
       do _ <- record_exception activity ex;
       do _ <- log LogError (Some ex) "Unhandled exception on {Path}"
                 [ArgString requestPath];
       do t <- trace_id_of activity;
       ret (mkResponse 500 (Some (envelope (TypeName ex) (Message ex) t)))).

(** One request through the pipeline, from the state the host hands over. *)
Definition invoke (env : Env) (fuel : nat) (e : Endpoint) : Outcome Response * World :=
  exception_handler (path e) (controllers env fuel e) (initial env).

(** ** Observers used by the statements *)

Definition field (k : string) (p : Payload) : option JsonValue :=
  match p with
  | PObject fields => snd <$> List.find (fun kv => String.eqb (fst kv) k) fields
  | PText _ => None
  end.

Definition keys (p : Payload) : list string :=
  match p with
  | PObject fields => fst <$> fields
  | PText _ => []
  end.

Definition is_json_string (v : option JsonValue) : bool :=
  match v with
  | Some (JString _) => true
  | _ => false
  end.

(** The status each endpoint documents. *)
Definition documented_status (e : Endpoint) : Z :=
  match e with
  | EpHealth => 200
  | EpUnhandledException => 500
  | EpHandledException => 500
  | EpSqlError => 500
  | EpTimeout => 200
  | EpCpuSpike => 200
  | EpMemorySpike => 200
  | EpDependencyFailure => 502
  | EpSerializationError => 500
  | EpAuthFailure => 401
  | EpForbidden => 403
  | EpSlowResponse => 200
  end.

(** The fault endpoints whose handler deals with its error itself. *)
Definition handles_locally (e : Endpoint) : bool :=
  match e with
  | EpHandledException | EpSqlError | EpDependencyFailure
  | EpSerializationError | EpAuthFailure | EpForbidden => true
  | _ => false
  end.

(** The trace id a handler's body reports: that of the activity it
    started when the source is sampled, else that of the request. *)
Definition handler_trace (env : Env) : option ActivityTraceId :=
  if listening env
  then Some (match ambient env with
             | Some t => t
             | None => freshTraceId env
             end)
  else ambient env.

Definition trace_json (t : option ActivityTraceId) : JsonValue :=
  match t with
  | Some x => JString (TraceId_ToString x)
  | None => JNull
  end.

(** The trace id in the body of an endpoint: the middleware builds the
    body of unhandled-exception after the handler's activity is gone. *)
Definition reporting_trace (env : Env) (e : Endpoint) : option ActivityTraceId :=
  match e with
  | EpUnhandledException => ambient env
  | _ => handler_trace env
  end.

Definition is_error_entry (l : LogEntry) : bool :=
  match Level l with
  | LogError => true
  | _ => false
  end.

(** The entries logged at error level. *)
Definition errors_logged (w : World) : list LogEntry :=
  List.filter is_error_entry (logs w).

(** A running span there is: the host made a request activity, or the
    source is sampled. *)
Definition tracing_active (env : Env) : bool :=
  listening env || match ambient env with Some _ => true | None => false end.

(** The world once the busy loop has gone round [k] times and then left:
    [k] random numbers drawn, [k + 1] readings of the stopwatch taken. *)
Definition after_wait (k : nat) (w : World) : World :=
  mkWorld (activities w) (current w) (logs w)
          (ops w ++ repeat OpNextDouble k)%list (S (reads w + k)) (data w).

(** ** Environments to evaluate on *)

Definition HttpRequestException : Exception :=
  mkException "System.Net.Http.HttpRequestException" "HttpRequestException"
              "Name or service not known (unreachable-service.local:9999)"
              (Some "   at System.Net.Http.HttpConnectionPool.ConnectToTcpHostAsync()").

(** A traced request on a machine whose stopwatch advances 1.2 s between
    two readings and which cannot reach the dependency. *)
Definition traced_env : Env :=
  mkEnv (Some 255%N) true 7%N (fun site => "   at " ++ site)
        (fun _ => HttpFailed HttpRequestException)
        (fun n => Z.of_nat n * 12000000)%Z
        638000000000000000.

(** The same machine with tracing off. *)
Definition untraced_env : Env :=
  mkEnv None false 7%N (fun site => "   at " ++ site)
        (fun _ => HttpFailed HttpRequestException)
        (fun n => Z.of_nat n * 12000000)%Z
        638000000000000000.

End Api.

(* ================================================================== *)
(** * JavaScript values as the frontend handles them                   *)
(* ================================================================== *)

Module Js.

(** The values that reach the code as [any]: primitives, arrays, plain
    objects with their own enumerable properties (in the order they are
    enumerated), and instances of [Error] with their [name] and [message].

    [Num z] is the Number that the integer [z] denotes: the double nearest
    to it, which is what a literal and [JSON.parse] make of its digits.
    The numbers the code meets (status codes, counts of milliseconds) are
    integral; fractions and NaN are left out.

    A string is a sequence of UTF-16 code units.  [Str] keeps it the way
    the source files keep their literals, in UTF-8, and a surrogate that
    has lost its partner as the three bytes generalized UTF-8 gives it. *)
#[local] Set Warnings "-register-all".
Inductive Value :=
| Undefined
| Null
| Bool (b : bool)
| Num (z : Z)
| Str (s : string)
| Arr (items : list Value)
| Obj (fields : list (string * Value))
| Err (name message : string).
#[local] Set Warnings "register-all".

Inductive Completion :=
| Returns
| Throws (e : Value).

Definition lookup_field (k : string) (fields : list (string * Value)) : Value :=
  match List.find (fun kv => String.eqb (fst kv) k) fields with
  | Some kv => snd kv
  | None => Undefined
  end.

(** [v.k]; [None] is the TypeError of a property read on null or
    undefined.  Only the properties the code reads are of interest, none
    of which a primitive or an array has. *)
Definition get (k : string) (v : Value) : option Value :=
  match v with
  | Undefined | Null => None
  | Obj fields => Some (lookup_field k fields)
  | Err name message =>
      Some (if String.eqb k "message" then Str message
            else if String.eqb k "name" then Str name
            else Undefined)
  | _ => Some Undefined
  end.

(** [v?.k] *)
Definition opt_get (k : string) (v : Value) : Value :=
  match get k v with
  | Some x => x
  | None => Undefined
  end.

Definition truthy (v : Value) : bool :=
  match v with
  | Undefined | Null => false
  | Bool b => b
  | Num z => negb (z =? 0)%Z
  | Str s => negb (String.eqb s EmptyString)
  | _ => true
  end.

(** [a || b] *)
Definition or_else (a b : Value) : Value := if truthy a then a else b.

Definition instanceof_Error (v : Value) : bool :=
  match v with
  | Err _ _ => true
  | _ => false
  end.

Fixpoint join (sep : string) (parts : list string) : string :=
  match parts with
  | [] => EmptyString
  | [p] => p
  | p :: rest => p ++ sep ++ join sep rest
  end.

(** ** Numbers *)

(** The double nearest to a natural number: 53 significant bits, a tie
    going to the even neighbour.  A result of 2^1024 or more stands for
    Infinity. *)
Definition nearest_double (m : Z) : Z :=
  let e := Z.log2 m in
  if (e <? 53)%Z then m
  else
    let ulp := (2 ^ (e - 52))%Z in
    let q := (m / ulp)%Z in
    let r := (m mod ulp)%Z in
    let up := (ulp <? 2 * r)%Z || ((ulp =? 2 * r)%Z && Z.odd q) in
    ((if up then q + 1 else q) * ulp)%Z.

Definition is_infinite (z : Z) : bool :=
  (2 ^ 1024 <=? nearest_double (Z.abs z))%Z.

Definition decimal_digits (m : Z) : nat := String.length (pretty.pretty m).

(** The multiple of [p] nearest to [x] among those that denote [x], if one
    does; of two equally near the even one. *)
Definition nearest_multiple (x p : Z) : option Z :=
  let lo := (x / p * p)%Z in
  let hi := (lo + p)%Z in
  match (nearest_double lo =? x)%Z, (nearest_double hi =? x)%Z with
  | true, true =>
      Some (if (x - lo <? hi - x)%Z then lo
            else if (hi - x <? x - lo)%Z then hi
            else if Z.even (lo / p) then lo else hi)
  | true, false => Some lo
  | false, true => Some hi
  | false, false => None
  end.

(** The decimal with the fewest significant digits that denotes the double
    [x]: the digits are tried from one upwards, [j] being the number of
    places left to zeros. *)
Fixpoint shortest_decimal (x : Z) (j : nat) : Z :=
  match nearest_multiple x (10 ^ Z.of_nat j) with
  | Some c => c
  | None =>
      match j with
      | O => x
      | S j' => shortest_decimal x j'
      end
  end.

Fixpoint strip_zeros (fuel : nat) (c : Z) : Z :=
  match fuel with
  | O => c
  | S f => if (c mod 10 =? 0)%Z && (0 <? c)%Z then strip_zeros f (c / 10) else c
  end.

Definition exponential (significand : string) (exponent : Z) : string :=
  match significand with
  | String d EmptyString => String d ("e+" ++ pretty.pretty exponent)
  | String d rest => String d ("." ++ rest ++ "e+" ++ pretty.pretty exponent)
  | EmptyString => EmptyString
  end.

(** [Number::toString] on the number [z] denotes: up to 21 digits are
    written out, a longer number as significand and exponent. *)
Definition Number_toString (z : Z) : string :=
  if (z =? 0)%Z then "0"
  else
    let sign := if (z <? 0)%Z then "-" else EmptyString in
    let x := nearest_double (Z.abs z) in
    if is_infinite z then sign ++ "Infinity"
    else
      let c := shortest_decimal x (decimal_digits x - 1) in
      let n := decimal_digits c in
      if (n <=? 21)%nat then sign ++ pretty.pretty c
      else sign ++ exponential (pretty.pretty (strip_zeros n c)) (Z.of_nat n - 1).

(** ** Strings *)

(** The code units a byte accounts for: the first byte of a character of
    the basic plane for one, the first of the four bytes of a character
    beyond it for the two surrogates, a byte that continues a character for
    none. *)
Definition code_units (c : ascii) : nat :=
  match c with
  | Ascii _ _ _ _ _ _ false true => 0
  | Ascii _ _ _ _ true true true true => 2
  | _ => 1
  end.


(** The first of the two surrogates of the character whose four bytes
    start with [b0 b1 b2], on its own. *)
Definition high_surrogate (b0 b1 b2 : ascii) : string :=
  let plane := ((N_of_ascii b0 mod 8) * 4 + (N_of_ascii b1 / 16) mod 4)%N in
  String "237"%char
    (String (ascii_of_N (160 + (plane - 1) mod 16))
       (String (ascii_of_N (128 + ((N_of_ascii b1 mod 16) * 4
                                   + (N_of_ascii b2 / 16) mod 4)))
          EmptyString)).

(** The code unit of a surrogate on its own, kept in the bytes
    [237 b1 b2]. *)
Definition lone_surrogate (b1 b2 : ascii) : N :=
  (55296 + (N_of_ascii b1 mod 32) * 64 + N_of_ascii b2 mod 64)%N.

Definition starts_surrogate (c b1 : ascii) : bool :=
  (N_of_ascii c =? 237)%N && (160 <=? N_of_ascii b1)%N && (N_of_ascii b1 <? 192)%N.

(** [String(v)], also what a template literal does with [v]. *)
Fixpoint ToString (v : Value) : string :=
  match v with
  | Undefined => "undefined"
  | Null => "null"
  | Bool true => "true"
  | Bool false => "false"
  | Num z => Number_toString z
  | Str s => s
  | Arr items =>
      join "," (List.map (fun x => match x with
                                   | Undefined | Null => EmptyString
                                   | _ => ToString x
                                   end) items)
  | Obj _ => "[object Object]"
  | Err name message =>
      if String.eqb name EmptyString then message
      else if String.eqb message EmptyString then name
      else name ++ ": " ++ message
  end.

Definition to_lower_char (c : ascii) : ascii :=
  let n := nat_of_ascii c in
  if (65 <=? n)%nat && (n <=? 90)%nat then ascii_of_nat (n + 32) else c.

(** [s.toLowerCase()] on the ASCII letters. *)
Fixpoint toLowerCase (s : string) : string :=
  match s with
  | EmptyString => EmptyString
  | String c rest => String (to_lower_char c) (toLowerCase rest)
  end.

Definition hex4 (n : N) : string :=
  Diagnostics.to_hex 4 n EmptyString.

Definition escape_char (c : ascii) : string :=
  let n := nat_of_ascii c in
  if (n =? 34)%nat then String "\"%char (String "034"%char EmptyString)
  else if (n =? 92)%nat then "\\"
  else if (n =? 8)%nat then "\b"
  else if (n =? 9)%nat then "\t"
  else if (n =? 10)%nat then "\n"
  else if (n =? 12)%nat then "\f"
  else if (n =? 13)%nat then "\r"
  else if (n <? 32)%nat then "\u" ++ hex4 (N.of_nat n)
  else String c EmptyString.

(** The characters [JSON.stringify] escapes: the quote, the backslash, the
    control characters, and a surrogate on its own. *)
Fixpoint escape (s : string) : string :=
  match s with
  | EmptyString => EmptyString
  | String c rest =>
      match rest with
      | String b1 (String b2 rest') =>
          if starts_surrogate c b1
          then "\u" ++ hex4 (lone_surrogate b1 b2) ++ escape rest'
          else escape_char c ++ escape rest
      | _ => escape_char c ++ escape rest
      end
  end.

Definition json_quote (s : string) : string :=
  String "034"%char (escape s ++ String "034"%char EmptyString).

(** [JSON.stringify(v)]; [None] is the [undefined] it returns for
    [undefined].  The properties of an [Error] are not enumerable. *)
Fixpoint stringify (v : Value) : option string :=
  match v with
  | Undefined => None
  | Null => Some "null"
  | Bool true => Some "true"
  | Bool false => Some "false"
  | Num z => Some (if is_infinite z then "null" else Number_toString z)
  | Str s => Some (json_quote s)
  | Arr items =>
      Some ("[" ++ join "," (List.map (fun x => match stringify x with
                                                 | Some t => t
                                                 | None => "null"
                                                 end) items) ++ "]")
  | Obj fields =>
      Some ("{" ++ join ","
                (List.flat_map (fun kv => match stringify (snd kv) with
                                          | Some t => [json_quote (fst kv) ++ ":" ++ t]
                                          | None => []
                                          end) fields) ++ "}")
  | Err _ _ => Some "{}"
  end.

(** [s.substring(0, n)]: the first [n] code units.  The bytes that
    continue a character go with its first byte; where the cut falls
    between the two surrogates of a character, the first stays on its own. *)
Fixpoint substring0 (n : nat) (s : string) : string :=
  match s with
  | EmptyString => EmptyString
  | String c rest =>
      match code_units c, n with
      | O, _ => String c (substring0 n rest)
      | 1%nat, S m => String c (substring0 m rest)
      | _, S (S m) => String c (substring0 m rest)
      | _, 1%nat =>
          match rest with
          | String b1 (String b2 _) => high_surrogate c b1 b2
          | _ => EmptyString
          end
      | _, O => EmptyString
      end
  end.

(** The TypeError of reading property [k] of null or undefined (V8's
    wording). *)
Definition TypeError_reading (k : string) (v : Value) : Value :=
  Err "TypeError"
      ("Cannot read properties of " ++ ToString v ++ " (reading '" ++ k ++ "')").

End Js.

(* ================================================================== *)
(** * global-error-handler.ts                                          *)
(* ================================================================== *)

Module Interceptor.
Import Js.

(** ** The tracer ([@opentelemetry/api]) *)

Inductive SpanStatusCode := UNSET | OK | ERROR.

(** A span; it is handed to the exporter when [ended]. *)
Record Span := mkSpan {
  spanName : string;
  status : option (SpanStatusCode * Value);
  attributes : list (string * Value);
  exceptions : list Value;
  ended : bool
}.

(** ** The window *)

Record Element := mkElement {
  tagName : string;
  src : Value;
  href : Value
}.

Inductive EventTarget :=
| WindowTarget
| ElementTarget (el : Element)
| NullTarget.

Inductive Event :=
| PromiseRejectionEvent (reason : Value)
| ErrorEvent (target : EventTarget).

Definition event_type (ev : Event) : string :=
  match ev with
  | PromiseRejectionEvent _ => "unhandledrejection"
  | ErrorEvent _ => "error"
  end.

(** The two arrow functions the constructor creates.  A closure is its
    code and the [this] it captured; two constructor calls give different
    closures. *)
Inductive ListenerCode := OnUnhandledRejection | OnError.

Record Listener := mkListener {
  code : ListenerCode;
  this : nat
}.

Record Registration := mkRegistration {
  eventType : string;
  callback : Listener;
  capture : bool
}.

Record Window := mkWindow {
  listeners : list Registration;  (* in registration order *)
  instances : nat;                (* GlobalErrorHandler objects constructed *)
  spans : list Span;              (* every span started; a handle is an index *)
  timers : list Value             (* pending [() => { throw error; }], by captured error *)
}.

Definition empty_window : Window := mkWindow [] 0 [] [].

#[global] Instance ListenerCode_eq_dec : EqDecision ListenerCode.
Proof. solve_decision. Defined.
#[global] Instance Listener_eq_dec : EqDecision Listener.
Proof. solve_decision. Defined.
#[global] Instance Registration_eq_dec : EqDecision Registration.
Proof. solve_decision. Defined.

Definition set_listeners (l : list Registration) (w : Window) : Window :=
  mkWindow l (instances w) (spans w) (timers w).
Definition set_spans (l : list Span) (w : Window) : Window :=
  mkWindow (listeners w) (instances w) l (timers w).
Definition set_timers (l : list Value) (w : Window) : Window :=
  mkWindow (listeners w) (instances w) (spans w) l.

(** [window.addEventListener(type, callback, capture)]: a registration
    already present (same type, same callback object, same phase) is not
    added again. *)
Definition addEventListener (type : string) (cb : Listener) (useCapture : bool)
           (w : Window) : Window :=
  let r := mkRegistration type cb useCapture in
  if bool_decide (r ∈ listeners w) then w
  else set_listeners (listeners w ++ [r])%list w.

Definition startSpan (name : string) (w : Window) : nat * Window :=
  (length (spans w), set_spans (spans w ++ [mkSpan name None [] [] false])%list w).

Definition on_span (f : Span -> Span) (h : nat) (w : Window) : Window :=
  set_spans (alter f h (spans w)) w.

Definition setStatus (c : SpanStatusCode) (message : Value) : nat -> Window -> Window :=
  on_span (fun s => mkSpan (spanName s) (Some (c, message)) (attributes s)
                           (exceptions s) (ended s)).

Definition setAttribute (k : string) (v : Value) : nat -> Window -> Window :=
  on_span (fun s => mkSpan (spanName s) (status s) (attributes s ++ [(k, v)])%list
                           (exceptions s) (ended s)).

Definition recordException (e : Value) : nat -> Window -> Window :=
  on_span (fun s => mkSpan (spanName s) (status s) (attributes s)
                           (exceptions s ++ [e])%list (ended s)).

Definition end_span : nat -> Window -> Window :=
  on_span (fun s => mkSpan (spanName s) (status s) (attributes s)
                           (exceptions s) true).

(** [setTimeout(() => { throw error; })] *)
Definition setTimeout (error : Value) (w : Window) : Window :=
  set_timers (timers w ++ [error])%list w.

(** ** GlobalErrorHandler *)

(** The listener for [unhandledrejection]. *)
Definition onUnhandledRejection (error : Value) (w : Window) : Window :=
  let '(span, w) := startSpan "unhandled-promise-rejection" w in
  let w := setStatus ERROR (or_else (opt_get "message" error) (Str (ToString error)))
                     span w in
  let w := if instanceof_Error error then recordException error span w else w in
  end_span span w.

(** The listener for [error], registered for the capture phase. *)
Definition onError (target : EventTarget) (w : Window) : Window :=
  match target with
  | ElementTarget el =>
      if String.eqb (tagName el) "IMG" || String.eqb (tagName el) "SCRIPT"
         || String.eqb (tagName el) "LINK"
      then
        let '(span, w) := startSpan "resource-load-failure" w in
        let w := setAttribute "resource.type" (Str (toLowerCase (tagName el))) span w in
        let w := setAttribute "resource.src"
                   (or_else (src el) (or_else (href el) (Str "unknown"))) span w in
        let w := setStatus ERROR
                   (Str ("Failed to load " ++ toLowerCase (tagName el) ++ ": "
                           ++ ToString (or_else (src el) (href el))))
                   span w in
        end_span span w
      else w
  | WindowTarget | NullTarget => w
  end.

(** [new GlobalErrorHandler()] *)
Definition constructor (w : Window) : nat * Window :=
  let self := instances w in
  let w := mkWindow (listeners w) (S self) (spans w) (timers w) in
  let w := addEventListener "unhandledrejection"
             (mkListener OnUnhandledRejection self) false w in
  let w := addEventListener "error" (mkListener OnError self) true w in
  (self, w).

(** [handleError(error)] *)
Definition handleError (error : Value) (w : Window) : Completion * Window :=
  let '(span, w) := startSpan "uncaught-error" w in
  match get "message" error with
  | None => (Throws (TypeError_reading "message" error), w)
  | Some m =>
      let w := setStatus ERROR (or_else m (Str "Unknown error")) span w in
      let w := recordException error span w in
      let w := end_span span w in
      (Returns, setTimeout error w)
  end.

(** ** The browser around it *)

(** What an event hands to a listener: [event.reason] is undefined on an
    event that is no rejection; a rejection event fires at the window. *)
Definition call (l : Listener) (ev : Event) (w : Window) : Window :=
  match code l with
  | OnUnhandledRejection =>
      onUnhandledRejection (match ev with
                            | PromiseRejectionEvent reason => reason
                            | ErrorEvent _ => Undefined
                            end) w
  | OnError =>
      onError (match ev with
               | ErrorEvent target => target
               | PromiseRejectionEvent _ => WindowTarget
               end) w
  end.

(** The listeners of the event's type run in registration order.  The
    window is on the path of every event, so a capture-phase listener on
    it sees the events of the elements; an [error] event of an element
    does not bubble, so a listener registered without capture sees only
    the events fired at the window itself. *)
Definition hears (r : Registration) (ev : Event) : bool :=
  String.eqb (eventType r) (event_type ev)
  && match ev with
     | ErrorEvent (ElementTarget _) => capture r
     | _ => true
     end.

Definition dispatchEvent (ev : Event) (w : Window) : Window :=
  fold_left (fun w r => if hears r ev then call (callback r) ev w else w)
            (listeners w) w.

Inductive Occurrence :=
| UnhandledRejection (reason : Value)
| ResourceLoadFailure (el : Element)
| UncaughtException (error : Value).

(** One thing the event loop does next: an occurrence arrives (an uncaught
    exception is handed by Angular to the [ErrorHandler]), or the oldest
    pending timer fires; its callback throws, and the error surfaces as an
    [error] event at the window. *)
Inductive Step :=
| Happens (o : Occurrence)
| TimerFires.

Definition step (s : Step) (w : Window) : Window :=
  match s with
  | Happens (UnhandledRejection reason) => dispatchEvent (PromiseRejectionEvent reason) w
  | Happens (ResourceLoadFailure el) => dispatchEvent (ErrorEvent (ElementTarget el)) w
  | Happens (UncaughtException error) => snd (handleError error w)
  | TimerFires =>
      match timers w with
      | [] => w
      | _ :: rest => dispatchEvent (ErrorEvent WindowTarget) (set_timers rest w)
      end
  end.

Definition run (steps : list Step) (w : Window) : Window :=
  fold_left (fun w s => step s w) steps w.

(** ** Observers used by the statements *)

(** The reported error events: the spans that were ended. *)
Definition reported (w : Window) : nat :=
  length (filter (fun s => ended s = true) (spans w)).

Definition registered (type : string) (w : Window) : nat :=
  length (filter (fun r => eventType r = type) (listeners w)).

Definition is_occurrence (s : Step) : bool :=
  match s with
  | Happens _ => true
  | TimerFires => false
  end.

Definition occurrences (steps : list Step) : nat :=
  length (List.filter is_occurrence steps).

(** The elements whose load failures the [error] listener lets through. *)
Definition passes_filter (el : Element) : bool :=
  String.eqb (tagName el) "IMG" || String.eqb (tagName el) "SCRIPT"
  || String.eqb (tagName el) "LINK".

Definition nullish (v : Value) : bool :=
  match v with
  | Undefined | Null => true
  | _ => false
  end.

(** The steps that are to leave one reported event behind: every
    rejection, every uncaught exception, and the load failures of images,
    scripts and links; not the firing of a timer. *)
Definition reportable (s : Step) : bool :=
  match s with
  | Happens (UnhandledRejection _) => true
  | Happens (ResourceLoadFailure el) => passes_filter el
  | Happens (UncaughtException _) => true
  | TimerFires => false
  end.

(** The window of an application whose injector made the handler once. *)
Definition installed : Window := snd (constructor empty_window).

(** [throw null] reaching the handler; the same value as the reason of a
    rejection; and three occurrences in a row with the timer of the last
    one firing. *)
Definition thrown_null : list Step := [Happens (UncaughtException Null)].

Definition rejected_null : list Step := [Happens (UnhandledRejection Null)].

Definition burst : list Step :=
  [Happens (UnhandledRejection (Err "Error" "Simulated unhandled promise rejection"));
   Happens (ResourceLoadFailure
              (mkElement "IMG" (Str "http://localhost:9999/nonexistent-image.png")
                         Undefined));
   Happens (UncaughtException (TypeError_reading "property" Undefined));
   TimerFires].

Fixpoint construct_times (n : nat) (w : Window) : Window :=
  match n with
  | O => w
  | S k => construct_times k (snd (constructor w))
  end.

End Interceptor.

(* ================================================================== *)
(** * error.service.ts and app.component.ts                            *)
(* ================================================================== *)

Module Ui.
Import Js.
Import Interceptor.

(** ** ErrorService *)

(** [(window as any).env?.API_URL || 'http://localhost:5215/api'] *)
Definition API_BASE (windowEnv : Value) : Value :=
  or_else (opt_get "API_URL" windowEnv) (Str "http://localhost:5215/api").

(** What [HttpClient.get] returns: a cold observable that stands for the
    GET of its URL and does nothing until subscribed to. *)
Inductive Observable := HttpGet (url : string).

Definition api (windowEnv : Value) (route : string) : Observable :=
  HttpGet (ToString (API_BASE windowEnv) ++ route).

Definition healthCheck (windowEnv : Value) := api windowEnv "/health".
Definition unhandledException (windowEnv : Value) := api windowEnv "/errors/unhandled-exception".
Definition handledException (windowEnv : Value) := api windowEnv "/errors/handled-exception".
Definition sqlError (windowEnv : Value) := api windowEnv "/errors/sql-error".
Definition timeout (windowEnv : Value) := api windowEnv "/errors/timeout".
Definition cpuSpike (windowEnv : Value) := api windowEnv "/errors/cpu-spike".
Definition memorySpike (windowEnv : Value) := api windowEnv "/errors/memory-spike".
Definition dependencyFailure (windowEnv : Value) := api windowEnv "/errors/dependency-failure".
Definition serializationError (windowEnv : Value) := api windowEnv "/errors/serialization-error".
Definition authFailure (windowEnv : Value) := api windowEnv "/errors/auth-failure".
Definition forbidden (windowEnv : Value) := api windowEnv "/errors/forbidden".
Definition slowResponse (windowEnv : Value) := api windowEnv "/errors/slow-response".

Definition simulateNetworkFailure : Observable :=
  HttpGet "http://localhost:9999/does-not-exist".
Definition simulateCorsFailure : Observable :=
  HttpGet "https://www.google.com/".

(** What a call of a client-side simulation does: how it completes, and
    what it sets off in the browser for later. *)
Record Outcome := mkOutcome {
  completion : Completion;
  aftermath : list Occurrence
}.

(** [const obj: any = undefined; obj.property;] *)
Definition simulateJsException : Outcome :=
  match get "property" Undefined with
  | Some _ => mkOutcome Returns []
  | None => mkOutcome (Throws (TypeError_reading "property" Undefined)) []
  end.

(** [Promise.reject(new Error(...))] with nobody to catch it. *)
Definition simulatePromiseRejection : Outcome :=
  mkOutcome Returns
    [UnhandledRejection (Err "Error" "Simulated unhandled promise rejection")].

(** [JSON.parse('{invalid json!!!}')]: the text is no JSON, the parser
    throws a SyntaxError (V8's wording). *)
Definition simulateJsonParseError : Outcome :=
  mkOutcome
    (Throws (Err "SyntaxError"
                 "Expected property name or '}' in JSON at position 1 (line 1 column 2)"))
    [].

(** An image with an unreachable source, appended to the document. *)
Definition simulateResourceLoadFailure : Outcome :=
  mkOutcome Returns
    [ResourceLoadFailure
       (mkElement "IMG" (Str "http://localhost:9999/nonexistent-image.png") Undefined)].

(** ** AppComponent *)

Inductive ButtonType := client | server.
Inductive ButtonStatus := idle | loading | success | error.

Inductive Simulation :=
| JsException
| PromiseRejection
| JsonParseError
| ResourceLoad.

Definition simulate (s : Simulation) : Outcome :=
  match s with
  | JsException => simulateJsException
  | PromiseRejection => simulatePromiseRejection
  | JsonParseError => simulateJsonParseError
  | ResourceLoad => simulateResourceLoadFailure
  end.

(** The [action] closures of the catalog:
    [() => this.runClient(id, () => this.errorService.f())] and
    [() => this.runHttp(id, this.errorService.g())]. *)
Inductive Action :=
| ViaRunClient (id : string) (fn : Simulation)
| ViaRunHttp (id : string) (obs : Observable).

Record ActionButton := mkButton {
  id : string;
  label : string;
  description : string;
  icon : string;
  type : ButtonType;
  status : ButtonStatus;
  response : Value;       (* [Undefined] while the property is not set *)
  action : Action
}.

Record AppComponent := mkApp {
  clientActions : list ActionButton;
  serverActions : list ActionButton;
  detectChanges : nat;                     (* calls of [cdr.detectChanges()] *)
  subscriptions : list (string * Observable) (* requests sent, with the id they report to *)
}.

Definition initial_clientActions : list ActionButton :=
  [ mkButton "js-exception" "JS Exception"
             "TypeError: cannot read property of undefined" "💥"
             client idle Undefined (ViaRunClient "js-exception" JsException);
    mkButton "promise-rejection" "Promise Rejection"
             "Unhandled async rejection" "⚡"
             client idle Undefined (ViaRunClient "promise-rejection" PromiseRejection);
    mkButton "network-failure" "Network Failure"
             "Connection to unreachable host" "🔌"
             client idle Undefined (ViaRunHttp "network-failure" simulateNetworkFailure);
    mkButton "cors-failure" "CORS Failure"
             "Cross-origin request blocked" "🚫"
             client idle Undefined (ViaRunHttp "cors-failure" simulateCorsFailure);
    mkButton "json-parse" "JSON Parse Error"
             "Invalid JSON string parsing" "📄"
             client idle Undefined (ViaRunClient "json-parse" JsonParseError);
    mkButton "resource-load" "Resource Load Failure"
             "Image from unreachable server" "🖼️"
             client idle Undefined (ViaRunClient "resource-load" ResourceLoad) ].

Definition initial_serverActions (windowEnv : Value) : list ActionButton :=
  [ mkButton "health" "Health Check" "Verify end-to-end trace (200 OK)" "💚"
             server idle Undefined (ViaRunHttp "health" (healthCheck windowEnv));
    mkButton "unhandled" "Unhandled Exception" "NullReferenceException (500)" "🔥"
             server idle Undefined (ViaRunHttp "unhandled" (unhandledException windowEnv));
    mkButton "handled" "Handled Exception" "InvalidOperationException (500)" "⚠️"
             server idle Undefined (ViaRunHttp "handled" (handledException windowEnv));
    mkButton "sql" "Database Error" "Simulated SQL connection failure" "🗄️"
             server idle Undefined (ViaRunHttp "sql" (sqlError windowEnv));
    mkButton "timeout" "Timeout" "30-second delay (exceeds client timeout)" "⏱️"
             server idle Undefined (ViaRunHttp "timeout" (timeout windowEnv));
    mkButton "cpu" "CPU Spike" "3-second busy loop" "🔄"
             server idle Undefined (ViaRunHttp "cpu" (cpuSpike windowEnv));
    mkButton "memory" "Memory Spike" "Allocate 500MB temporarily" "📈"
             server idle Undefined (ViaRunHttp "memory" (memorySpike windowEnv));
    mkButton "dependency" "Dependency Failure" "HTTP call to unreachable service" "🔗"
             server idle Undefined (ViaRunHttp "dependency" (dependencyFailure windowEnv));
    mkButton "serialization" "Serialization Error" "Circular reference in JSON" "🔁"
             server idle Undefined
             (ViaRunHttp "serialization" (serializationError windowEnv));
    mkButton "auth" "Auth Failure (401)" "Missing/invalid token" "🔒"
             server idle Undefined (ViaRunHttp "auth" (authFailure windowEnv));
    mkButton "forbidden" "Forbidden (403)" "Insufficient permissions" "🛡️"
             server idle Undefined (ViaRunHttp "forbidden" (forbidden windowEnv));
    mkButton "slow" "Slow Response" "5-second delay then 200 OK" "🐌"
             server idle Undefined (ViaRunHttp "slow" (slowResponse windowEnv)) ].

(** The component as constructed. *)
Definition initial (windowEnv : Value) : AppComponent :=
  mkApp initial_clientActions (initial_serverActions windowEnv) 0 [].

Inductive ButtonRef :=
| InClient (k : nat)
| InServer (k : nat).

(** [clientActions.find(a => a.id === id) || serverActions.find(a => a.id === id)],
    as the place of the object found. *)
Definition findButton (i : string) (c : AppComponent) : option ButtonRef :=
  match list_find (fun a => id a = i) (clientActions c) with
  | Some (k, _) => Some (InClient k)
  | None =>
      match list_find (fun a => id a = i) (serverActions c) with
      | Some (k, _) => Some (InServer k)
      | None => None
      end
  end.

Definition deref (r : ButtonRef) (c : AppComponent) : option ActionButton :=
  match r with
  | InClient k => clientActions c !! k
  | InServer k => serverActions c !! k
  end.

(** The descriptor [findButton] yields. *)
Definition button (i : string) (c : AppComponent) : option ActionButton :=
  r ← findButton i c; deref r c.

(** [btn.status = status; btn.response = response;] *)
Definition assign (s : ButtonStatus) (r : Value) (b : ActionButton) : ActionButton :=
  mkButton (id b) (label b) (description b) (icon b) (type b) s r (action b).

Definition setStatus (i : string) (s : ButtonStatus) (r : Value)
           (c : AppComponent) : AppComponent :=
  match findButton i c with
  | Some (InClient k) =>
      mkApp (alter (assign s r) k (clientActions c)) (serverActions c)
            (S (detectChanges c)) (subscriptions c)
  | Some (InServer k) =>
      mkApp (clientActions c) (alter (assign s r) k (serverActions c))
            (S (detectChanges c)) (subscriptions c)
  | None => c
  end.

Record Ran := mkRan {
  completed : Completion;
  setOff : list Occurrence;
  after : AppComponent
}.

(** [runClient(id, fn)]; [fn] is given by what calling it does. *)
Definition runClient (i : string) (fn : Outcome) (c : AppComponent) : Ran :=
  let c := setStatus i loading Undefined c in
  match completion fn with
  | Returns =>
      mkRan Returns (aftermath fn)
            (setStatus i error (Str "Exception thrown (check Jaeger)") c)
  | Throws e =>
      match get "message" e with
      | Some m => mkRan (Throws e) (aftermath fn) (setStatus i error m c)
      | None => mkRan (Throws (TypeError_reading "message" e)) (aftermath fn) c
      end
  end.

(** [runHttp(id, obs)]: the request leaves; the callbacks run when the
    answer arrives. *)
Definition runHttp (i : string) (obs : Observable) (c : AppComponent) : AppComponent :=
  let c := setStatus i loading Undefined c in
  mkApp (clientActions c) (serverActions c) (detectChanges c)
        (subscriptions c ++ [(i, obs)])%list.

(** The [next] callback of [runHttp]. *)
Definition next (i : string) (res : Value) (c : AppComponent)
  : Completion * AppComponent :=
  let traceId := or_else (opt_get "traceId" res) (Str EmptyString) in
  if truthy traceId
  then (Returns, setStatus i success (Str ("TraceId: " ++ ToString traceId)) c)
  else match stringify res with
       | Some text => (Returns, setStatus i success (Str (substring0 100 text)) c)
       | None => (Throws (TypeError_reading "substring" Undefined), c)
       end.

(** The [error] callback of [runHttp]. *)
Definition error_ (i : string) (err : Value) (c : AppComponent)
  : Completion * AppComponent :=
  let msg := or_else (opt_get "message" (opt_get "error" err))
               (or_else (opt_get "message" err) (Str "Request failed")) in
  let traceId := or_else (opt_get "traceId" (opt_get "error" err)) (Str EmptyString) in
  (Returns,
   setStatus i error
     (if truthy traceId
      then Str (ToString msg ++ " | TraceId: " ++ ToString traceId)
      else msg) c).

(** ** Invocations *)

Definition action_id (a : Action) : string :=
  match a with
  | ViaRunClient i _ => i
  | ViaRunHttp i _ => i
  end.

(** [btn.action()] *)
Definition run_action (a : Action) (c : AppComponent) : AppComponent :=
  match a with
  | ViaRunClient i fn => after (runClient i (simulate fn) c)
  | ViaRunHttp i obs => runHttp i obs c
  end.

(** What happens for an action: it is invoked, or (for one that went
    through [runHttp]) the answer to its request comes back. *)
Inductive Invocation :=
| Invoked
| Answered (res : Value)
| Failed (err : Value).

Definition perform (a : Action) (inv : Invocation) (c : AppComponent) : AppComponent :=
  match inv, a with
  | Invoked, _ => run_action a c
  | Answered res, ViaRunHttp i _ => snd (next i res c)
  | Failed err, ViaRunHttp i _ => snd (error_ i err c)
  | _, ViaRunClient _ _ => c
  end.

(** Everything of a descriptor but its status and response summary. *)
Definition fixed_part (b : ActionButton)
  : string * string * string * string * ButtonType * Action :=
  (id b, label b, description b, icon b, type b, action b).

(** [l'] is [l] with nothing added, removed or moved, no descriptor
    changed in its fixed part, and no descriptor of another id than [i]
    changed at all. *)
Definition untouched_but (i : string) (l l' : list ActionButton) : Prop :=
  Forall2 (fun b b' => fixed_part b' = fixed_part b /\ (id b <> i -> b' = b)) l l'.

End Ui.

(* ================================================================== *)
(** * What a request leaves behind                                     *)
(* ================================================================== *)

Module Footprint.
Import Diagnostics.
Import Api.

(** The delays a request waited for, in milliseconds. *)
Definition delays (w : World) : list Z :=
  omap (fun o => match o with OpDelay ms => Some ms | _ => None end) (ops w).

(** The outbound GETs it made, with the timeout set on the client. *)
Definition outbound (w : World) : list (string * Z) :=
  omap (fun o => match o with OpHttpGet url t => Some (url, t) | _ => None end) (ops w).

(** The arrays it allocated, by size. *)
Definition allocated (w : World) : list Z :=
  omap (fun o => match o with OpAlloc bytes => Some bytes | _ => None end) (ops w).

(** The objects it handed to the serializer. *)
Definition serialized (w : World) : list nat :=
  omap (fun o => match o with OpSerialize root => Some root | _ => None end) (ops w).

(** The random numbers it drew. *)
Definition draws (w : World) : nat :=
  length (omap (fun o => match o with OpNextDouble => Some tt | _ => None end) (ops w)).

(** The activities a request started: those behind the ones the host
    handed over. *)
Definition started (env : Env) (w : World) : list Activity :=
  drop (length (activities (initial env))) (activities w).

(** The trace a request belongs to. *)
Definition request_trace (env : Env) : ActivityTraceId :=
  match ambient env with
  | Some t => t
  | None => freshTraceId env
  end.

(** The same machine and network, traced differently. *)
Definition retraced (amb : option ActivityTraceId) (lis : bool)
           (fresh : ActivityTraceId) (env : Env) : Env :=
  mkEnv amb lis fresh (stackTraceAt env) (httpGet env) (stopwatch env) (utcNow env).

(** A body without its traceId. *)
Definition without_trace_id (b : option Payload) : option Payload :=
  match b with
  | Some (PObject fields) =>
      Some (PObject (List.filter (fun kv => negb (String.eqb (fst kv) "traceId")) fields))
  | other => other
  end.

(** Whether a status is a server error. *)
Definition is_server_error (status : Z) : bool := (500 <=? status)%Z.

(** The endpoints whose handler catches an exception and reports it. *)
Definition catches_exception (e : Endpoint) : bool :=
  match e with
  | EpHandledException | EpSqlError | EpDependencyFailure | EpSerializationError => true
  | _ => false
  end.

(** A machine whose stopwatch stands still. *)
Definition stalled_env : Env :=
  mkEnv None false 7%N (fun site => "   at " ++ site)
        (fun _ => HttpFailed HttpRequestException)
        (fun _ => 0%Z)
        638000000000000000.

End Footprint.

(* ================================================================== *)
(** * Program.cs: the Serilog enricher                                 *)
(* ================================================================== *)

Module Logging.
Import Diagnostics.

(** [ActivitySpanId]: 8 bytes, kept as a number. *)
Definition ActivitySpanId := N.

(** [ActivitySpanId.ToString()]: 16 hexadecimal characters. *)
Definition SpanId_ToString (s : ActivitySpanId) : string :=
  to_hex 16 s EmptyString.

(** [logEvent.AddPropertyIfAbsent(factory.CreateProperty(name, value))]:
    the properties of a log event are a dictionary by name. *)
Definition AddPropertyIfAbsent (name value : string) (properties : gmap string string)
  : gmap string string :=
  match properties !! name with
  | Some _ => properties
  | None => <[name := value]> properties
  end.

(** [ActivityEnricher.Enrich]; [activity] is what [Activity.Current] has of
    trace id and span id, if there is one. *)
Definition Enrich (activity : option (ActivityTraceId * ActivitySpanId))
           (properties : gmap string string) : gmap string string :=
  let properties :=
    AddPropertyIfAbsent "TraceId"
      (match activity with
       | Some (t, _) => TraceId_ToString t
       | None => "00000000000000000000000000000000"
       end) properties in
  AddPropertyIfAbsent "SpanId"
    (match activity with
     | Some (_, s) => SpanId_ToString s
     | None => "0000000000000000"
     end) properties.

End Logging.

(* ================================================================== *)
(** * From the click to the trace, from the answer to the descriptor   *)
(* ================================================================== *)

Module Flow.
Import Js.
Import Interceptor.
Import Ui.

(** A value of a body as it arrives parsed; how the serializer writes a
    date is its own affair, [date] stands for it. *)
Definition js_of_json (date : Z -> string) (v : Api.JsonValue) : Value :=
  match v with
  | Api.JNull => Null
  | Api.JString s => Str s
  | Api.JNumber z => Num z
  | Api.JDateTime ticks => Str (date ticks)
  end.

(** The body [HttpClient] hands to the callbacks: the parsed object, null
    for an answer without body.  An answer whose body is no JSON object is
    not followed ([None]). *)
Definition parsed (date : Z -> string) (b : option Api.Payload) : option Value :=
  match b with
  | Some (Api.PObject fields) =>
      Some (Obj (List.map (fun kv => (fst kv, js_of_json date (snd kv))) fields))
  | Some (Api.PText _) => None
  | None => Some Null
  end.

(** [HttpErrorResponse]: the parsed body under [error], the client's own
    text under [message]. *)
Definition HttpErrorResponse (status : Z) (failure : string) (body : Value) : Value :=
  Obj [("error", body); ("status", Num status); ("message", Str failure)].

(** An answer reaches [next] when its status is 2xx and [error] otherwise. *)
Definition answered (date : Z -> string) (failure : string) (i : string)
           (r : Api.Response) (c : AppComponent) : option (Completion * AppComponent) :=
  match parsed date (Api.Body r) with
  | Some body =>
      Some (if (200 <=? Api.StatusCode r)%Z && (Api.StatusCode r <? 300)%Z
            then next i body c
            else error_ i (HttpErrorResponse (Api.StatusCode r) failure body) c)
  | None => None
  end.

(** A click on a button: its action runs; what it throws Angular hands to
    the [ErrorHandler], what it has set off arrives afterwards. *)
Definition press (a : Action) (c : AppComponent) : AppComponent * list Step :=
  match a with
  | ViaRunClient i fn =>
      let r := runClient i (simulate fn) c in
      (after r,
       (match completed r with
        | Throws e => [Happens (UncaughtException e)]
        | Returns => []
        end ++ List.map Happens (setOff r))%list)
  | ViaRunHttp i obs => (runHttp i obs c, [])
  end.

(** The span a simulation is there to produce. *)
Definition expected_span (fn : Simulation) : string :=
  match fn with
  | JsException => "uncaught-error"
  | PromiseRejection => "unhandled-promise-rejection"
  | JsonParseError => "uncaught-error"
  | ResourceLoad => "resource-load-failure"
  end.

(** The names of the spans that were ended. *)
Definition reported_names (w : Window) : list string :=
  spanName <$> filter (fun s => ended s = true) (spans w).






(** How many spans one constructed handler writes for an event. *)
Definition heard (ev : Event) : nat :=
  match ev with
  | PromiseRejectionEvent _ => 1
  | ErrorEvent (ElementTarget el) => if passes_filter el then 1 else 0
  | ErrorEvent _ => 0
  end.

(** Uncaught exceptions one after another. *)
Definition uncaught (errors : list Value) : list Step :=
  List.map (fun e => Happens (UncaughtException e)) errors.

End Flow.

(* ================================================================== *)
(** * Properties of the backend                                        *)
(* ================================================================== *)

Module ApiSpec.
Import Diagnostics.
Import Api.

(** Unfold a request on an arbitrary environment: case on whether the
    host made a request activity and whether the source is sampled, then
    evaluate, leaving the rendering of trace ids alone. *)
Ltac by_cases_on env :=
  destruct env as [amb lis fresh st hg sw now]; cbn [ambient listening httpGet stopwatch] in *;
  destruct amb, lis.

Ltac evaluate := lazy -[TraceId_ToString Z.div Z.le Z.lt Z.ltb].

Lemma to_hex_length (digits : nat) (v : N) (acc : string) :
  String.length (to_hex digits v acc) = (digits + String.length acc)%nat.
Proof.
  revert v acc. induction digits as [|k IH]; intros v acc; cbn [to_hex].
  - reflexivity.
  - rewrite IH. cbn [String.length]. lia.
Qed.

Lemma TraceId_ToString_length (t : ActivityTraceId) :
  String.length (TraceId_ToString t) = 32%nat.
Proof. unfold TraceId_ToString. rewrite to_hex_length. reflexivity. Qed.

(** C1: each fault endpoint that deals with its error itself
    (handled-exception, sql-error, dependency-failure, serialization-error,
    auth-failure, forbidden) answers with its documented status (500, 500,
    502, 500, 401, 403) and the envelope {error, message, traceId} whose
    error and message are strings, never null.  For dependency-failure the
    dependency is out of reach, as the endpoint is built to find it: the
    GET fails or times out. *)
Theorem local_handlers_answer_documented_envelope (env : Env) (fuel : nat) (e : Endpoint) :
  handles_locally e = true ->
  (e = EpDependencyFailure -> exists ex, httpGet env dependency_url = HttpFailed ex) ->
  exists r w p,
    invoke env fuel e = (Done r, w)
    /\ StatusCode r = documented_status e
    /\ Body r = Some p
    /\ keys p = ["error"; "message"; "traceId"]
    /\ is_json_string (field "error" p) = true
    /\ is_json_string (field "message" p) = true.
Proof.
  intros Hlocal Hdown.
  destruct e; try discriminate Hlocal.
  all: try (by_cases_on env; evaluate; do 3 eexists; repeat split; reflexivity).
  destruct (Hdown eq_refl) as [ex Hget]. unfold dependency_url in Hget.
  by_cases_on env; evaluate; rewrite Hget; evaluate;
    do 3 eexists; repeat split; reflexivity.
Qed.

Lemma local_handlers_answer_documented_envelope_witness :
  handles_locally EpDependencyFailure = true
  /\ (exists ex, httpGet traced_env dependency_url = HttpFailed ex)
  /\ exists r w p,
       invoke traced_env 0 EpDependencyFailure = (Done r, w)
       /\ StatusCode r = 502%Z
       /\ Body r = Some p
       /\ keys p = ["error"; "message"; "traceId"]
       /\ is_json_string (field "error" p) = true
       /\ is_json_string (field "message" p) = true.
Proof.
  split; [reflexivity|].
  split; [eexists; reflexivity|].
  apply (local_handlers_answer_documented_envelope traced_env 0 EpDependencyFailure).
  - reflexivity.
  - intros _. eexists; reflexivity.
Defined.

(** ** The busy loop *)

(** One turn of the loop. *)
Lemma busy_wait_turn (env : Env) (f : nat) (w : World) :
  busy_wait env (S f) w
  = if (stopwatch env (reads w) <? 3 * TicksPerSecond)%Z
    then busy_wait env f (add_op OpNextDouble (tick w))
    else (Done tt, tick w).
Proof.
  cbn [busy_wait]. unfold bind, Elapsed, op, modify, ret.
  destruct (stopwatch env (reads w) <? 3 * TicksPerSecond)%Z; reflexivity.
Qed.

Lemma after_wait_0 (w : World) : after_wait 0 w = tick w.
Proof.
  unfold after_wait, tick. cbn [repeat]. rewrite app_nil_r, Nat.add_0_r. reflexivity.
Qed.

Lemma after_wait_S (k : nat) (w : World) :
  after_wait (S k) w = after_wait k (add_op OpNextDouble (tick w)).
Proof.
  unfold after_wait, add_op, tick; cbn [activities current logs ops reads data].
  rewrite <- app_assoc. cbn [app repeat].
  replace (S (reads w) + k)%nat with (reads w + S k)%nat by lia. reflexivity.
Qed.

(** With any fuel the loop runs out of it or leaves after some [k] turns,
    on the first reading of at least 3 seconds. *)
Lemma busy_wait_shape (env : Env) (fuel : nat) (w : World) :
  (exists w', busy_wait env fuel w = (Diverged, w'))
  \/ (exists k, (k < fuel)%nat
                /\ busy_wait env fuel w = (Done tt, after_wait k w)
                /\ (3 * TicksPerSecond <= stopwatch env (reads w + k))%Z).
Proof.
  revert w. induction fuel as [|f IH]; intros w.
  - left. eexists. reflexivity.
  - rewrite busy_wait_turn.
    destruct (stopwatch env (reads w) <? 3 * TicksPerSecond)%Z eqn:Hlt.
    + destruct (IH (add_op OpNextDouble (tick w))) as [[w' Hd] | (k & Hk & Hrun & Hge)].
      * left. exists w'. exact Hd.
      * right. exists (S k). split; [lia|]. split.
        -- rewrite Hrun, after_wait_S. reflexivity.
        -- cbn [reads add_op tick] in Hge.
           replace (reads w + S k)%nat with (S (reads w) + k)%nat by lia. exact Hge.
    + right. exists 0%nat. split; [lia|]. split.
      * rewrite after_wait_0. reflexivity.
      * apply Z.ltb_ge in Hlt. rewrite Nat.add_0_r. exact Hlt.
Qed.

(** Once the stopwatch shows 3 seconds at some reading, fuel beyond that
    reading is enough for the loop to leave. *)
Lemma busy_wait_exits (env : Env) (n fuel : nat) (w : World) :
  (3 * TicksPerSecond <= stopwatch env (reads w + n))%Z ->
  (n < fuel)%nat ->
  exists k, busy_wait env fuel w = (Done tt, after_wait k w)
            /\ (3 * TicksPerSecond <= stopwatch env (reads w + k))%Z.
Proof.
  revert fuel w. induction n as [|n IH]; intros fuel w Hn Hfuel;
    (destruct fuel as [|f]; [lia|]); rewrite busy_wait_turn;
    destruct (stopwatch env (reads w) <? 3 * TicksPerSecond)%Z eqn:Hlt.
  - rewrite Nat.add_0_r in Hn. apply Z.ltb_lt in Hlt. lia.
  - exists 0%nat. rewrite after_wait_0, Nat.add_0_r. split; [reflexivity|].
    apply Z.ltb_ge in Hlt. exact Hlt.
  - destruct (IH f (add_op OpNextDouble (tick w))) as (k & Hrun & Hge).
    + cbn [reads add_op tick].
      replace (S (reads w) + n)%nat with (reads w + S n)%nat by lia. exact Hn.
    + lia.
    + exists (S k). rewrite after_wait_S. split; [exact Hrun|].
      cbn [reads add_op tick] in Hge.
      replace (reads w + S k)%nat with (S (reads w) + k)%nat by lia. exact Hge.
  - exists 0%nat. rewrite after_wait_0, Nat.add_0_r. split; [reflexivity|].
    apply Z.ltb_ge in Hlt. exact Hlt.
Qed.

(** The loop runs out of fuel, or it has gone round once for every
    reading below 3 seconds and leaves on the first reading that is not. *)
Lemma busy_wait_first (env : Env) (fuel : nat) (w : World) :
  (exists w', busy_wait env fuel w = (Diverged, w'))
  \/ exists k,
       busy_wait env fuel w = (Done tt, after_wait k w)
       /\ (forall j, (j < k)%nat -> (stopwatch env (reads w + j) < 3 * TicksPerSecond)%Z)
       /\ (3 * TicksPerSecond <= stopwatch env (reads w + k))%Z.
Proof.
  revert w. induction fuel as [|f IH]; intros w.
  - left. eexists. reflexivity.
  - rewrite busy_wait_turn.
    destruct (stopwatch env (reads w) <? 3 * TicksPerSecond)%Z eqn:Hlt.
    + destruct (IH (add_op OpNextDouble (tick w))) as [[w' Hd] | (k & Hrun & Hlow & Hhigh)].
      * left. exists w'. exact Hd.
      * right. exists (S k). rewrite after_wait_S. split; [exact Hrun|].
        cbn [reads add_op tick] in *. split.
        -- intros [|j] Hj.
           ++ rewrite Nat.add_0_r. apply Z.ltb_lt. exact Hlt.
           ++ replace (reads w + S j)%nat with (S (reads w) + j)%nat by lia.
              apply Hlow. lia.
        -- replace (reads w + S k)%nat with (S (reads w) + k)%nat by lia. exact Hhigh.
    + right. exists 0%nat. rewrite after_wait_0.
      split; [reflexivity|]. split; [intros j Hj; lia|].
      rewrite Nat.add_0_r. apply Z.ltb_ge. exact Hlt.
Qed.

(** The loop draws one random number a turn. *)
Lemma draws_of_turns (k : nat) :
  length (omap (fun o => match o with OpNextDouble => Some tt | _ => None end)
               (repeat OpNextDouble k)) = k.
Proof. induction k as [|k IH]; cbn; [reflexivity|]. now rewrite IH. Qed.

(** The exception the unhandled-exception handler lets go, as thrown. *)
Lemma UnhandledException_raises (env : Env) :
  exists w,
    UnhandledException env (initial env)
    = (Raised (mkException "System.NullReferenceException" "NullReferenceException"
                           "Object reference not set to an instance of an object."
                           (Some (stackTraceAt env "UnhandledException"))), w)
    /\ errors_logged w = [].
Proof. by_cases_on env; evaluate; eexists; split; reflexivity. Qed.

(** C2: the unhandled-exception handler throws a NullReferenceException
    and does not catch it; the request still ends with status 500 and the
    envelope {error, message, traceId}.  The middleware is the one place
    that catches it: the log holds one error entry, carrying the exception
    itself, and the span that is current in the middleware (the request's,
    when there is one) gets error status and an exception event with the
    type, the message and the stack trace. *)
Theorem unhandled_exception_answered_by_middleware (env : Env) (fuel : nat) :
  let nre := mkException "System.NullReferenceException" "NullReferenceException"
               "Object reference not set to an instance of an object."
               (Some (stackTraceAt env "UnhandledException")) in
  (exists w0, controllers env fuel EpUnhandledException (initial env) = (Raised nre, w0)
              /\ errors_logged w0 = [])
  /\ exists w,
      invoke env fuel EpUnhandledException
      = (Done (mkResponse 500
                 (Some (PObject [("error", JString "NullReferenceException");
                                 ("message", JString (Message nre));
                                 ("traceId", trace_json (ambient env))]))), w)
      /\ errors_logged w
         = [mkLog LogError (Some nre) "Unhandled exception on {Path}"
                  [ArgString "/api/errors/unhandled-exception"]]
      /\ match ambient env with
         | Some t =>
             exists h a,
               current w = Some h
               /\ activities w !! h = Some a
               /\ TraceId a = t
               /\ Status a = Error
               /\ StatusDescription a = Some (Message nre)
               /\ Events a
                  = [mkEvent "exception"
                       [("exception.type", TagString "System.NullReferenceException");
                        ("exception.message", TagString (Message nre));
                        ("exception.stacktrace",
                         TagString (stackTraceAt env "UnhandledException"))]]
         | None => current w = None
         end.
Proof.
  cbv zeta. split.
  - apply UnhandledException_raises.
  - by_cases_on env; evaluate; eexists; (split; [reflexivity|]);
      (split; [reflexivity|]); try reflexivity;
      do 2 eexists; repeat split; reflexivity.
Qed.

(** C3, as the code has it: sql-error makes its error up (it calls nothing
    and reports the text of the exception it constructs); serialization-error
    builds two objects that refer to each other and does hand them to the
    serializer, whose exception is what it reports. *)
Theorem sql_error_fabricates_serialization_error_serializes (env : Env) (fuel : nat) :
  (exists w,
     invoke env fuel EpSqlError
     = (Done (mkResponse 500
                (Some (envelope "DatabaseError"
                         "Database connection failed: Unable to connect to server 'db-server:5432'. Connection refused."
                         (trace_json (handler_trace env))))), w)
     /\ ops w = [])
  /\ (exists a b heap,
        circular_pair = (a, heap)
        /\ Ref <$> heap !! a = Some (Some b)
        /\ Ref <$> heap !! b = Some (Some a)
        /\ write_object heap MaxDepth a = None
        /\ exists w,
            invoke env fuel EpSerializationError
            = (Done (mkResponse 500
                       (Some (envelope "SerializationError" (Message JsonException)
                                (trace_json (handler_trace env))))), w)
            /\ ops w = [OpSerialize a]).
Proof.
  split.
  - by_cases_on env; evaluate; eexists; split; reflexivity.
  - exists 0%nat, 1%nat, (snd circular_pair).
    split; [reflexivity|]. split; [reflexivity|]. split; [reflexivity|].
    split; [vm_compute; reflexivity|].
    by_cases_on env; evaluate; eexists; split; reflexivity.
Qed.

(** C3 as stated fails: the serialization-error handler calls the
    serializer on its circular structure. *)
Lemma serialization_error_calls_the_serializer :
  exists a heap,
    circular_pair = (a, heap)
    /\ ops (snd (invoke traced_env 0 EpSerializationError)) = [OpSerialize a]
    /\ (exists b, Ref <$> heap !! a = Some (Some b) /\ Ref <$> heap !! b = Some (Some a)).
Proof.
  exists 0%nat, (snd circular_pair).
  split; [reflexivity|]. split; [vm_compute; reflexivity|].
  exists 1%nat. split; reflexivity.
Qed.

(** C8: the health endpoint answers 200 with status, the time the clock
    shows, and a trace id, which is 32 characters long whenever a span is
    running. *)
Theorem health_answers_200_with_timestamp_and_trace (env : Env) (fuel : nat) :
  exists w tid,
    invoke env fuel EpHealth
    = (Done (mkResponse 200
               (Some (PObject [("status", JString "healthy");
                               ("timestamp", JDateTime (utcNow env));
                               ("traceId", tid)]))), w)
    /\ (tracing_active env = true ->
        exists s, tid = JString s /\ String.length s = 32%nat /\ s <> EmptyString).
Proof.
  assert (Hne : forall t, TraceId_ToString t <> EmptyString).
  { intros t Ht. pose proof (TraceId_ToString_length t) as Hl.
    rewrite Ht in Hl. discriminate Hl. }
  by_cases_on env; evaluate; do 2 eexists; (split; [reflexivity|]);
    intros Hact; try discriminate Hact;
    eexists; (split; [reflexivity|]);
    (split; [apply TraceId_ToString_length | apply Hne]).
Qed.

(** From the first reading of 3 seconds on, every reading is at least
    3000 ms. *)
Lemma later_readings_reach_3000 (sw : nat -> Z) (k m : nat) :
  (forall i j, (i <= j)%nat -> (sw i <= sw j)%Z) ->
  (3 * TicksPerSecond <= sw k)%Z ->
  (k <= m)%nat ->
  (3000 <= sw m / 10000)%Z.
Proof.
  intros Hmono Hge Hkm. specialize (Hmono k m Hkm).
  unfold TicksPerSecond in Hge.
  apply Z.div_le_lower_bound; lia.
Qed.

Ltac meet_busy_wait n Hreach Hfuel :=
  match goal with
  | |- context [busy_wait ?e ?f ?w] =>
      let k := fresh "k" in
      let Hrun := fresh "Hrun" in
      let Hge := fresh "Hge" in
      destruct (busy_wait_exits e n f w Hreach Hfuel) as (k & Hrun & Hge);
      rewrite Hrun; cbn [stopwatch reads Nat.add] in Hge
  end.

(** C6: with a stopwatch that never runs backwards and reaches 3 seconds,
    cpu-spike leaves its loop, and leaves it on the first reading of at
    least 3 seconds: it has gone round (and drawn a random number) once for
    every reading below.  It answers 200, and its durationMs is a later
    reading of the same stopwatch (the third after the loop when there is
    a span to tag, else the second) in whole milliseconds, so at least
    3000.
    memory-spike allocates 50 arrays of 10 MB, clears the list, collects,
    and answers 200 with allocatedMb 500. *)
Theorem cpu_spike_waits_3s_memory_spike_reports_500 (env : Env) (n : nat) :
  (forall i j, (i <= j)%nat -> (stopwatch env i <= stopwatch env j)%Z) ->
  (3 * TicksPerSecond <= stopwatch env n)%Z ->
  (forall fuel, (n < fuel)%nat ->
     exists k w ms tid,
       invoke env fuel EpCpuSpike
       = (Done (mkResponse 200
                  (Some (PObject [("message", JString "CPU spike simulation completed");
                                  ("durationMs", JNumber ms);
                                  ("traceId", tid)]))), w)
       /\ (3000 <= ms)%Z
       /\ (forall j, (j < k)%nat -> (stopwatch env j < 3 * TicksPerSecond)%Z)
       /\ (3 * TicksPerSecond <= stopwatch env k)%Z
       /\ Footprint.draws w = k
       /\ ms = (stopwatch env ((if listening env then 3 else 2) + k) / TicksPerMillisecond)%Z)
  /\ (forall fuel,
        exists w tid,
          invoke env fuel EpMemorySpike
          = (Done (mkResponse 200
                     (Some (PObject [("message", JString "Memory spike simulation completed");
                                     ("allocatedMb", JNumber 500);
                                     ("traceId", tid)]))), w)
          /\ ops w = (repeat (OpAlloc (10 * 1024 * 1024)) 50
                        ++ [OpClear 50; OpGcCollect])%list
          /\ data w = []).
Proof.
  intros Hmono Hreach. split.
  - intros fuel Hfuel.
    by_cases_on env; lazy -[TraceId_ToString Z.div Z.le Z.lt Z.ltb busy_wait];
      match goal with
      | |- context [busy_wait ?e ?f ?w0] =>
          destruct (busy_wait_exits e n f w0 Hreach Hfuel) as (k' & Hout & _);
          destruct (busy_wait_first e f w0) as [[w' Hbw] | (k & Hbw & Hlow & Hhigh)];
          [rewrite Hbw in Hout; discriminate Hout | rewrite Hbw]
      end;
      cbn [stopwatch reads Nat.add] in Hlow, Hhigh;
      lazy -[TraceId_ToString Z.div Z.le Z.lt Z.ltb repeat Footprint.draws];
      exists k; do 3 eexists; (split; [reflexivity|]);
      (split; [apply (later_readings_reach_3000 sw k); auto; lia|]);
      (split; [exact Hlow|]); (split; [exact Hhigh|]);
      (split; [unfold Footprint.draws; cbn [ops]; apply draws_of_turns|]);
      reflexivity.
  - intros fuel.
    by_cases_on env; evaluate; do 2 eexists; repeat split; reflexivity.
Qed.

Lemma cpu_spike_waits_3s_memory_spike_reports_500_witness :
  exists k w ms tid,
    invoke traced_env 4 EpCpuSpike
    = (Done (mkResponse 200
               (Some (PObject [("message", JString "CPU spike simulation completed");
                               ("durationMs", JNumber ms);
                               ("traceId", tid)]))), w)
    /\ (3000 <= ms)%Z
    /\ (3 * TicksPerSecond <= stopwatch traced_env k)%Z.
Proof.
  assert (Hmono : forall i j, (i <= j)%nat ->
                    (stopwatch traced_env i <= stopwatch traced_env j)%Z).
  { intros i j Hij. cbn [stopwatch traced_env]. lia. }
  assert (Hreach : (3 * TicksPerSecond <= stopwatch traced_env 3)%Z).
  { vm_compute. discriminate. }
  destruct (proj1 (cpu_spike_waits_3s_memory_spike_reports_500 traced_env 3 Hmono Hreach)
              4%nat (Nat.lt_succ_diag_r 3))
    as (k & w & ms & tid & Hrun & Hms & _ & Hhigh & _).
  exists k, w, ms, tid. split; [exact Hrun|]. split; [exact Hms | exact Hhigh].
Defined.

(** C7 fails on the timeout endpoint: on a traced request its body is
    {message} alone, without a traceId, where slow-response, the handler of
    the same shape next to it, sends the trace id of the request. *)
Theorem timeout_body_has_no_trace_id :
  fst (invoke traced_env 0 EpTimeout)
  = Done (mkResponse 200
            (Some (PObject [("message", JString "Completed after timeout delay")])))
  /\ field "traceId" (PObject [("message", JString "Completed after timeout delay")])
     = None
  /\ tracing_active traced_env = true
  /\ fst (invoke traced_env 0 EpSlowResponse)
     = Done (mkResponse 200
               (Some (PObject [("message", JString "Slow response completed after 5 seconds");
                               ("delayMs", JNumber 5000);
                               ("traceId", JString (TraceId_ToString 255%N))]))).
Proof. repeat split; vm_compute; reflexivity. Qed.

(** Every other endpoint does send one: whatever endpoint but timeout
    answers, the body has a traceId, null when no span is current where the
    body is built, else the 32 characters of that span's trace id.  (The
    one answer without a body is dependency-failure's 200, should the
    dependency answer; the one request without an answer is a cpu-spike
    whose loop is still running.) *)
Theorem every_body_but_timeout_carries_trace_id (env : Env) (fuel : nat) (e : Endpoint) :
  e <> EpTimeout ->
  match invoke env fuel e with
  | (Done r, _) =>
      match Body r with
      | Some p =>
          field "traceId" p
          = Some (match reporting_trace env e with
                  | Some t => JString (TraceId_ToString t)
                  | None => JNull
                  end)
      | None =>
          e = EpDependencyFailure
          /\ exists status, httpGet env dependency_url = HttpAnswered status
      end
  | (Raised _, _) => False
  | (Diverged, _) => e = EpCpuSpike
  end
  /\ (tracing_active env = false -> reporting_trace env e = None)
  /\ (forall t, String.length (TraceId_ToString t) = 32%nat).
Proof.
  intros Hne. split; [|split].
  - destruct e; try congruence.
    all: try (by_cases_on env; evaluate; reflexivity).
    + (* cpu-spike *)
      by_cases_on env; lazy -[TraceId_ToString Z.div Z.le Z.lt Z.ltb busy_wait];
        match goal with
        | |- context [busy_wait ?e ?f ?w] =>
            destruct (busy_wait_shape e f w) as [[w' Hd] | (k & _ & Hrun & _)];
            [rewrite Hd | rewrite Hrun]
        end;
        lazy -[TraceId_ToString Z.div Z.le Z.lt Z.ltb repeat]; reflexivity.
    + (* dependency-failure *)
      by_cases_on env; evaluate;
        destruct (hg "http://unreachable-service.local:9999/api/data") as [status|ex] eqn:Hget;
        evaluate; try reflexivity; (split; [reflexivity|]);
        exists status; reflexivity.
  - destruct e; by_cases_on env; cbn; congruence.
  - apply TraceId_ToString_length.
Qed.

Lemma every_body_but_timeout_carries_trace_id_witness :
  field "traceId"
    (PObject [("message", JString "Slow response completed after 5 seconds");
              ("delayMs", JNumber 5000);
              ("traceId", JNull)])
  = Some JNull.
Proof.
  assert (Hne : EpSlowResponse <> EpTimeout) by discriminate.
  exact (proj1 (every_body_but_timeout_carries_trace_id untraced_env 0 EpSlowResponse Hne)).
Defined.

End ApiSpec.

(* ================================================================== *)
(** * Properties of the error interceptor                              *)
(* ================================================================== *)

Module InterceptorSpec.
Import Js.
Import Interceptor.

(** ** Registration *)

(** A closure made by a new instance is not among the listeners yet. *)
Lemma fresh_listener_not_registered (l : list Registration) (type : string)
      (c : ListenerCode) (useCapture : bool) (self : nat) :
  Forall (fun r => (this (callback r) < self)%nat) l ->
  mkRegistration type (mkListener c self) useCapture ∉ l.
Proof.
  intros Hold Hin. rewrite Forall_forall in Hold.
  specialize (Hold _ Hin). cbn in Hold. lia.
Qed.

(** What one construction leaves in the window. *)
Lemma constructor_listeners (w : Window) :
  Forall (fun r => (this (callback r) < instances w)%nat) (listeners w) ->
  snd (constructor w)
  = mkWindow (listeners w
                ++ [mkRegistration "unhandledrejection"
                      (mkListener OnUnhandledRejection (instances w)) false;
                    mkRegistration "error" (mkListener OnError (instances w)) true])
             (S (instances w)) (spans w) (timers w).
Proof.
  intros Hold. unfold constructor; cbn [snd].
  unfold addEventListener at 2. cbn [listeners].
  rewrite bool_decide_eq_false_2
    by (apply fresh_listener_not_registered; exact Hold).
  unfold addEventListener, set_listeners. cbn [listeners instances spans timers].
  rewrite bool_decide_eq_false_2.
  - rewrite <- app_assoc. reflexivity.
  - intros Hin. apply elem_of_app in Hin as [Hin | Hin].
    + revert Hin. apply fresh_listener_not_registered. exact Hold.
    + apply list_elem_of_singleton in Hin. discriminate Hin.
Qed.

(** One construction adds one listener of each kind, whatever was there. *)
Lemma constructor_registers (w : Window) :
  Forall (fun r => (this (callback r) < instances w)%nat) (listeners w) ->
  registered "unhandledrejection" (snd (constructor w))
  = S (registered "unhandledrejection" w)
  /\ registered "error" (snd (constructor w)) = S (registered "error" w)
  /\ Forall (fun r => (this (callback r) < instances (snd (constructor w)))%nat)
            (listeners (snd (constructor w))).
Proof.
  intros Hold. rewrite (constructor_listeners w Hold).
  unfold registered; cbn [listeners instances].
  rewrite !filter_app, !length_app.
  split; [|split].
  - rewrite !filter_cons, filter_nil.
    repeat case_decide; cbn in *; try discriminate; try congruence; lia.
  - rewrite !filter_cons, filter_nil.
    repeat case_decide; cbn in *; try discriminate; try congruence; lia.
  - rewrite Forall_app. split.
    + eapply Forall_impl; [exact Hold|]. cbn. intros; lia.
    + repeat constructor.
Qed.

Lemma construct_times_registers (n : nat) (w : Window) :
  Forall (fun r => (this (callback r) < instances w)%nat) (listeners w) ->
  registered "unhandledrejection" (construct_times n w)
  = (n + registered "unhandledrejection" w)%nat
  /\ registered "error" (construct_times n w) = (n + registered "error" w)%nat.
Proof.
  revert w. induction n as [|n IH]; intros w Hold; cbn [construct_times].
  - split; reflexivity.
  - destruct (constructor_registers w Hold) as (Hr & He & Hold').
    destruct (IH _ Hold') as [IHr IHe].
    rewrite IHr, IHe, Hr, He. split; lia.
Qed.

(** C4 as stated fails: nothing guards the registration; a second
    construction attaches a second pair of listeners. *)
Lemma second_construction_registers_again :
  registered "unhandledrejection" (construct_times 2 empty_window) = 2%nat
  /\ registered "error" (construct_times 2 empty_window) = 2%nat.
Proof. split; vm_compute; reflexivity. Qed.

(** C4, as the code has it: every construction of the handler attaches one
    listener for unhandled rejections and one for load errors; constructed
    once, as the injector of an application does, the window has one of
    each, and constructed n times it has n of each. *)
Theorem each_construction_registers_one_pair (n : nat) :
  registered "unhandledrejection" (construct_times n empty_window) = n
  /\ registered "error" (construct_times n empty_window) = n
  /\ registered "unhandledrejection" installed = 1%nat
  /\ registered "error" installed = 1%nat.
Proof.
  destruct (construct_times_registers n empty_window) as [Hr He].
  { constructor. }
  rewrite Hr, He. cbn. repeat split; lia.
Qed.

(** ** Reporting *)

Lemma on_span_last (f : Span -> Span) (l : list Span) (x : Span) (w : Window) :
  on_span f (length l) (set_spans (l ++ [x]) w) = set_spans (l ++ [f x]) w.
Proof.
  unfold on_span, set_spans; cbn [listeners instances spans timers].
  replace (length l) with (length l + 0)%nat by lia.
  rewrite alter_app_r. reflexivity.
Qed.

Lemma reported_one_more (l : list Span) (x : Span) (w : Window) :
  ended x = true ->
  l = spans w ->
  reported (set_spans (l ++ [x]) w) = S (reported w)
  /\ length (spans (set_spans (l ++ [x]) w)) = S (length (spans w)).
Proof.
  intros Hx ->. unfold reported, set_spans; cbn [spans].
  rewrite filter_app, !length_app, filter_cons, filter_nil.
  case_decide; [|congruence]. cbn. split; lia.
Qed.

(** The rejection listener starts one span and ends it. *)
Lemma onUnhandledRejection_reports (error : Value) (w : Window) :
  exists s, onUnhandledRejection error w = set_spans (spans w ++ [s]) w
            /\ ended s = true
            /\ spanName s = "unhandled-promise-rejection".
Proof.
  unfold onUnhandledRejection, startSpan, setStatus, recordException, end_span.
  rewrite on_span_last.
  destruct (instanceof_Error error); rewrite ?on_span_last;
    eexists; (split; [reflexivity|]); split; reflexivity.
Qed.

(** The error listener does so for the elements that pass its filter, and
    nothing for any other target. *)
Lemma onError_reports (el : Element) (w : Window) :
  passes_filter el = true ->
  exists s, onError (ElementTarget el) w = set_spans (spans w ++ [s]) w
            /\ ended s = true
            /\ spanName s = "resource-load-failure".
Proof.
  unfold passes_filter, onError. intros ->.
  unfold startSpan, setStatus, setAttribute, end_span.
  rewrite !on_span_last.
  eexists; (split; [reflexivity|]); split; reflexivity.
Qed.

Lemma onError_turns_away (target : EventTarget) (w : Window) :
  match target with
  | ElementTarget el => passes_filter el = false
  | _ => True
  end ->
  onError target w = w.
Proof.
  destruct target as [|el|]; try reflexivity.
  unfold passes_filter, onError. intros ->. reflexivity.
Qed.

(** [handleError] on a value that has properties: one span, ended, and
    one timer that will throw the same value. *)
Lemma handleError_reports (error : Value) (w : Window) :
  nullish error = false ->
  exists s, handleError error w
            = (Returns, set_timers (timers w ++ [error]) (set_spans (spans w ++ [s]) w))
            /\ ended s = true
            /\ spanName s = "uncaught-error".
Proof.
  intros Hnn. unfold handleError, startSpan.
  destruct (get "message" error) as [m|] eqn:Hm.
  - unfold setStatus, recordException, end_span, setTimeout.
    rewrite !on_span_last.
    eexists; (split; [reflexivity|]); split; reflexivity.
  - destruct error; discriminate.
Qed.

(** With the one pair of listeners, an event reaches the listener of its
    type and no other. *)
Lemma dispatchEvent_installed (ev : Event) (w : Window) :
  listeners w = listeners installed ->
  dispatchEvent ev w
  = match ev with
    | PromiseRejectionEvent reason => onUnhandledRejection reason w
    | ErrorEvent target => onError target w
    end.
Proof.
  intros HL. unfold dispatchEvent. rewrite HL.
  destruct ev as [reason | [|el|]]; reflexivity.
Qed.

(** One step on a window with the one pair of listeners and no span left
    open. *)
Lemma step_reports (s : Step) (w : Window) :
  listeners w = listeners installed ->
  length (spans w) = reported w ->
  (forall e, s = Happens (UncaughtException e) -> nullish e = false) ->
  listeners (step s w) = listeners installed
  /\ length (spans (step s w)) = reported (step s w)
  /\ reported (step s w) = ((if reportable s then 1 else 0) + reported w)%nat.
Proof.
  intros HL Hall Hok.
  destruct s as [[reason | el | error] | ]; cbn [step reportable].
  - rewrite (dispatchEvent_installed _ w HL).
    destruct (onUnhandledRejection_reports reason w) as (s & -> & Hs & _).
    destruct (reported_one_more (spans w) s w Hs eq_refl) as [Hr Hlen].
    rewrite Hr, Hlen. repeat split; [exact HL | lia].
  - rewrite (dispatchEvent_installed _ w HL).
    destruct (passes_filter el) eqn:Hpass.
    + destruct (onError_reports el w Hpass) as (s & -> & Hs & _).
      destruct (reported_one_more (spans w) s w Hs eq_refl) as [Hr Hlen].
      rewrite Hr, Hlen. repeat split; [exact HL | lia].
    + rewrite (onError_turns_away (ElementTarget el) w Hpass).
      repeat split; assumption.
  - destruct (handleError_reports error w (Hok error eq_refl)) as (s & -> & Hs & _).
    cbn [snd].
    destruct (reported_one_more (spans w) s w Hs eq_refl) as [Hr Hlen].
    unfold reported, set_timers in *; cbn [spans listeners] in *.
    rewrite Hr, Hlen. repeat split; [exact HL | lia].
  - destruct (timers w) as [|t rest]; [repeat split; assumption|].
    rewrite dispatchEvent_installed by exact HL.
    rewrite (onError_turns_away WindowTarget _ I).
    repeat split; assumption.
Qed.

Lemma run_reports (steps : list Step) (w : Window) :
  listeners w = listeners installed ->
  length (spans w) = reported w ->
  Forall (fun s => forall e, s = Happens (UncaughtException e) -> nullish e = false)
         steps ->
  listeners (run steps w) = listeners installed
  /\ length (spans (run steps w)) = reported (run steps w)
  /\ reported (run steps w) = (length (List.filter reportable steps) + reported w)%nat.
Proof.
  revert w. induction steps as [|s steps IH]; intros w HL Hall Hok.
  - repeat split; assumption.
  - inversion Hok as [|? ? Hs Hrest]; subst.
    destruct (step_reports s w HL Hall Hs) as (HL' & Hall' & Hr').
    destruct (IH (step s w) HL' Hall' Hrest) as (HL'' & Hall'' & Hr'').
    unfold run in *. cbn [fold_left List.filter].
    repeat split; [exact HL'' | exact Hall'' |].
    rewrite Hr'', Hr'. destruct (reportable s); cbn [length]; lia.
Qed.

(** C5 fails on an uncaught exception that is null or undefined:
    [handleError] reads [error.message] before it ends the span, where the
    rejection listener next to it reads [error?.message].  A thrown null is
    one occurrence and leaves no reported event: the TypeError leaves
    [handleError], the span it started stays open without status, and no
    timer is queued to throw the value again.  The same null as the reason
    of a rejection is reported. *)
Theorem thrown_null_is_not_reported :
  occurrences thrown_null = 1%nat
  /\ fst (handleError Null installed) = Throws (TypeError_reading "message" Null)
  /\ reported (run thrown_null installed) = 0%nat
  /\ spans (run thrown_null installed) = [mkSpan "uncaught-error" None [] [] false]
  /\ timers (run thrown_null installed) = []
  /\ reported (run rejected_null installed) = 1%nat.
Proof. repeat split; vm_compute; reflexivity. Qed.

(** On every other occurrence the interceptor keeps count.  With the
    handler constructed once, every unhandled rejection, every load failure
    of an image, script or link (the elements the listener is written
    for), and every uncaught exception that has properties leaves exactly
    one ended span, however the occurrences and the timers interleave; the
    uncaught-exception path queues one timer that throws the error again,
    and that timer firing (an error event at the window) leaves none. *)
Theorem interceptor_reports_each_occurrence_once (steps : list Step) :
  Forall (fun s => forall e, s = Happens (UncaughtException e) -> nullish e = false)
         steps ->
  reported (run steps installed) = length (List.filter reportable steps)
  /\ length (spans (run steps installed)) = reported (run steps installed)
  /\ (forall error w, nullish error = false ->
        fst (handleError error w) = Returns
        /\ timers (snd (handleError error w)) = (timers w ++ [error])%list)
  /\ (forall w, listeners w = listeners installed ->
        reported (step TimerFires w) = reported w).
Proof.
  intros Hok.
  destruct (run_reports steps installed eq_refl eq_refl Hok) as (_ & Hall & Hr).
  split; [|split; [|split]].
  - rewrite Hr. change (reported installed) with 0%nat. lia.
  - exact Hall.
  - intros error w Hnn.
    destruct (handleError_reports error w Hnn) as (s & -> & _). split; reflexivity.
  - intros w HL. cbn [step]. destruct (timers w) as [|t rest]; [reflexivity|].
    rewrite dispatchEvent_installed by exact HL.
    rewrite (onError_turns_away WindowTarget _ I). reflexivity.
Qed.

Lemma interceptor_reports_each_occurrence_once_witness :
  reported (run burst installed) = 3%nat.
Proof.
  assert (Hok : Forall (fun s => forall e, s = Happens (UncaughtException e) ->
                                           nullish e = false) burst).
  { repeat constructor; intros e He; inversion He; reflexivity. }
  exact (proj1 (interceptor_reports_each_occurrence_once burst Hok)).
Defined.

End InterceptorSpec.

(* ================================================================== *)
(** * Properties of the trigger layer                                  *)
(* ================================================================== *)

Module UiSpec.
Import Js.
Import Interceptor.
Import Ui.

Lemma untouched_but_refl (i : string) (l : list ActionButton) : untouched_but i l l.
Proof. unfold untouched_but. induction l; constructor; auto. Qed.

Lemma untouched_but_trans (i : string) (l1 l2 l3 : list ActionButton) :
  untouched_but i l1 l2 -> untouched_but i l2 l3 -> untouched_but i l1 l3.
Proof.
  unfold untouched_but. intros H12. revert l3.
  induction H12 as [|b1 b2 l1 l2 [Hf Hid] _ IH]; intros l3 H23.
  - inversion H23. constructor.
  - inversion H23 as [|? b3 ? l3' [Hf' Hid'] Hrest]; subst.
    constructor; [|apply IH; exact Hrest].
    split; [congruence|].
    intros Hne. rewrite <- (Hid Hne). apply Hid'.
    unfold fixed_part in Hf. injection Hf as Hi _ _ _ _ _. congruence.
Qed.

(** Assigning to the descriptor at [k], whose id is [i], touches no other. *)
Lemma alter_untouched_but (i : string) (s : ButtonStatus) (r : Value)
      (l : list ActionButton) (k : nat) :
  (forall b, l !! k = Some b -> id b = i) ->
  untouched_but i l (alter (assign s r) k l).
Proof.
  unfold untouched_but. revert k. induction l as [|b l IH]; intros k Hk.
  - constructor.
  - destruct k as [|k]; cbn.
    + constructor; [|apply (untouched_but_refl i)].
      split; [reflexivity|]. intros Hne. exfalso. apply Hne, Hk. reflexivity.
    + constructor; [auto|]. apply IH. intros b' Hb'. apply Hk. exact Hb'.
Qed.

(** [setStatus] changes the status and the summary of the descriptor it
    finds, and nothing else in the two catalogs. *)
Lemma setStatus_untouched_but (i : string) (s : ButtonStatus) (r : Value)
      (c : AppComponent) :
  untouched_but i (clientActions c) (clientActions (setStatus i s r c))
  /\ untouched_but i (serverActions c) (serverActions (setStatus i s r c)).
Proof.
  unfold setStatus, findButton.
  destruct (list_find (fun a => id a = i) (clientActions c)) as [[k b]|] eqn:Hc.
  - apply list_find_Some in Hc as (Hk & Hid & _). cbn [clientActions serverActions].
    split; [|apply untouched_but_refl].
    apply alter_untouched_but. intros b' Hb'. congruence.
  - destruct (list_find (fun a => id a = i) (serverActions c)) as [[k b]|] eqn:Hs.
    + apply list_find_Some in Hs as (Hk & Hid & _). cbn [clientActions serverActions].
      split; [apply untouched_but_refl|].
      apply alter_untouched_but. intros b' Hb'. congruence.
    + split; apply untouched_but_refl.
Qed.

Lemma runClient_untouched_but (i : string) (fn : Outcome) (c : AppComponent) :
  untouched_but i (clientActions c) (clientActions (after (runClient i fn c)))
  /\ untouched_but i (serverActions c) (serverActions (after (runClient i fn c))).
Proof.
  unfold runClient.
  destruct (setStatus_untouched_but i loading Undefined c) as [Hc1 Hs1].
  destruct (completion fn) as [|e]; [|destruct (get "message" e) as [m|]];
    cbn [after]; try (split; assumption);
    match goal with
    | |- context [setStatus i ?s ?r (setStatus i loading Undefined c)] =>
        destruct (setStatus_untouched_but i s r (setStatus i loading Undefined c))
          as [Hc2 Hs2]
    end;
    split; eapply untouched_but_trans; eassumption.
Qed.

Lemma runHttp_untouched_but (i : string) (obs : Observable) (c : AppComponent) :
  untouched_but i (clientActions c) (clientActions (runHttp i obs c))
  /\ untouched_but i (serverActions c) (serverActions (runHttp i obs c)).
Proof.
  unfold runHttp. cbn [clientActions serverActions].
  apply setStatus_untouched_but.
Qed.

Lemma next_untouched_but (i : string) (res : Value) (c : AppComponent) :
  untouched_but i (clientActions c) (clientActions (snd (next i res c)))
  /\ untouched_but i (serverActions c) (serverActions (snd (next i res c))).
Proof.
  unfold next.
  destruct (truthy _); [apply setStatus_untouched_but|].
  destruct (stringify res); [apply setStatus_untouched_but|].
  split; apply untouched_but_refl.
Qed.

Lemma error_untouched_but (i : string) (err : Value) (c : AppComponent) :
  untouched_but i (clientActions c) (clientActions (snd (error_ i err c)))
  /\ untouched_but i (serverActions c) (serverActions (snd (error_ i err c))).
Proof. unfold error_. cbn [snd]. apply setStatus_untouched_but. Qed.

(** C9: whatever happens for an action (it is invoked, or the answer to
    its request arrives), both catalogs keep their descriptors in place,
    each with its id, label, description, icon, type and action; only
    status and summary of the descriptor with the action's id may change.
    In the catalogs as constructed every action carries the id of its own
    descriptor, and no id occurs twice. *)
Theorem invocation_touches_own_descriptor_only
        (windowEnv : Value) (c : AppComponent) (a : Action) (inv : Invocation) :
  untouched_but (action_id a) (clientActions c) (clientActions (perform a inv c))
  /\ untouched_but (action_id a) (serverActions c) (serverActions (perform a inv c))
  /\ Forall (fun b => action_id (action b) = id b)
            (clientActions (initial windowEnv) ++ serverActions (initial windowEnv))%list
  /\ NoDup (id <$> (clientActions (initial windowEnv)
                      ++ serverActions (initial windowEnv))%list).
Proof.
  split; [|split; [|split]].
  - destruct inv, a; cbn [perform run_action action_id];
      first [ apply runClient_untouched_but | apply runHttp_untouched_but
            | apply next_untouched_but | apply error_untouched_but
            | apply untouched_but_refl ].
  - destruct inv, a; cbn [perform run_action action_id];
      first [ apply runClient_untouched_but | apply runHttp_untouched_but
            | apply next_untouched_but | apply error_untouched_but
            | apply untouched_but_refl ].
  - cbn. repeat constructor.
  - cbn. apply (bool_decide_unpack _). vm_compute. reflexivity.
Qed.

(** Assigning at the place [find] stops at leaves [find] stopping there. *)
Lemma list_find_alter_assign (i : string) (s : ButtonStatus) (r : Value)
      (l : list ActionButton) (k : nat) (b : ActionButton) :
  list_find (fun a => id a = i) l = Some (k, b) ->
  list_find (fun a => id a = i) (alter (assign s r) k l) = Some (k, assign s r b).
Proof.
  intros Hfind. apply list_find_Some in Hfind as (Hk & Hid & Hmin).
  apply list_find_Some. split; [|split].
  - rewrite list_lookup_alter_eq, Hk. reflexivity.
  - exact Hid.
  - intros j y Hj Hlt. rewrite list_lookup_alter_ne in Hj by lia. eauto.
Qed.

(** After [setStatus(id, s, r)] the descriptor of that id has status [s]
    and summary [r], and is otherwise as before. *)
Lemma button_setStatus (i : string) (s : ButtonStatus) (r : Value)
      (c : AppComponent) (b : ActionButton) :
  button i c = Some b ->
  button i (setStatus i s r c) = Some (assign s r b).
Proof.
  unfold button, setStatus, findButton.
  destruct (list_find (fun a => id a = i) (clientActions c)) as [[k x]|] eqn:Hc.
  - cbn. intros Hb. pose proof Hc as Hc'.
    apply list_find_Some in Hc' as (Hk & _). rewrite Hk in Hb.
    injection Hb as ->.
    rewrite (list_find_alter_assign i s r _ k b Hc). cbn.
    rewrite list_lookup_alter_eq, Hk. reflexivity.
  - destruct (list_find (fun a => id a = i) (serverActions c)) as [[k x]|] eqn:Hs.
    + cbn. intros Hb. pose proof Hs as Hs'.
      apply list_find_Some in Hs' as (Hk & _). rewrite Hk in Hb.
      injection Hb as ->.
      rewrite Hc, (list_find_alter_assign i s r _ k b Hs). cbn.
      rewrite list_lookup_alter_eq, Hk. reflexivity.
    + cbn. discriminate.
Qed.

(** [runClient] on a function that returns. *)
Lemma runClient_returns (i : string) (fn : Outcome) (c : AppComponent)
      (b : ActionButton) :
  button i c = Some b ->
  completion fn = Returns ->
  completed (runClient i fn c) = Returns
  /\ button i (after (runClient i fn c))
     = Some (assign error (Str "Exception thrown (check Jaeger)") b).
Proof.
  intros Hb Hfn. unfold runClient. rewrite Hfn. cbn [completed after].
  split; [reflexivity|].
  rewrite (button_setStatus i error _ _ (assign loading Undefined b)).
  - reflexivity.
  - apply button_setStatus. exact Hb.
Qed.

(** [runClient] on a function that throws a value with properties. *)
Lemma runClient_throws (i : string) (fn : Outcome) (c : AppComponent)
      (b : ActionButton) (e m : Value) :
  button i c = Some b ->
  completion fn = Throws e ->
  get "message" e = Some m ->
  completed (runClient i fn c) = Throws e
  /\ button i (after (runClient i fn c)) = Some (assign error m b).
Proof.
  intros Hb Hfn Hm. unfold runClient. rewrite Hfn, Hm. cbn [completed after].
  split; [reflexivity|].
  rewrite (button_setStatus i error _ _ (assign loading Undefined b)).
  - reflexivity.
  - apply button_setStatus. exact Hb.
Qed.

(** C10: each of the client-side simulations, run through [runClient] for
    an id the catalogs hold, leaves that descriptor in status error, never
    success: with the summary "Exception thrown (check Jaeger)" when the
    simulation returns, and with the message of the exception, which
    [runClient] throws on, when the simulation throws. *)
Theorem runClient_ends_in_error
        (c : AppComponent) (i : string) (fn : Simulation) (b : ActionButton) :
  button i c = Some b ->
  exists b',
    button i (after (runClient i (simulate fn) c)) = Some b'
    /\ status b' = error
    /\ status b' <> success
    /\ fixed_part b' = fixed_part b
    /\ match completion (simulate fn) with
       | Returns =>
           completed (runClient i (simulate fn) c) = Returns
           /\ response b' = Str "Exception thrown (check Jaeger)"
       | Throws e =>
           completed (runClient i (simulate fn) c) = Throws e
           /\ get "message" e = Some (response b')
       end.
Proof.
  intros Hb.
  destruct fn; cbn [simulate].
  - destruct (runClient_throws i simulateJsException c b _ _ Hb eq_refl eq_refl)
      as [Hdone Hbtn].
    eexists. split; [exact Hbtn|]. repeat split; try discriminate; try exact Hdone.
  - destruct (runClient_returns i simulatePromiseRejection c b Hb eq_refl)
      as [Hdone Hbtn].
    eexists. split; [exact Hbtn|]. repeat split; try discriminate; try exact Hdone.
  - destruct (runClient_throws i simulateJsonParseError c b _ _ Hb eq_refl eq_refl)
      as [Hdone Hbtn].
    eexists. split; [exact Hbtn|]. repeat split; try discriminate; try exact Hdone.
  - destruct (runClient_returns i simulateResourceLoadFailure c b Hb eq_refl)
      as [Hdone Hbtn].
    eexists. split; [exact Hbtn|]. repeat split; try discriminate; try exact Hdone.
Qed.

Lemma runClient_ends_in_error_witness :
  exists b',
    button "json-parse"
           (after (runClient "json-parse" (simulate JsonParseError) (initial Undefined)))
    = Some b'
    /\ status b' = error
    /\ response b'
       = Str "Expected property name or '}' in JSON at position 1 (line 1 column 2)".
Proof.
  destruct (runClient_ends_in_error (initial Undefined) "json-parse" JsonParseError
              _ eq_refl)
    as (b' & Hbtn & Hst & _ & _ & _ & Hmsg).
  exists b'. split; [exact Hbtn|]. split; [exact Hst|].
  cbn in Hmsg. injection Hmsg as <-. reflexivity.
Defined.

End UiSpec.

(* ================================================================== *)
(** * Further properties of the backend                                *)
(* ================================================================== *)

Module ApiMore.
Import Diagnostics.
Import Api.
Import Footprint.

Ltac by_cases env :=
  destruct env as [amb lis fresh st hg sw now];
  cbn [ambient listening httpGet stopwatch freshTraceId] in *;
  destruct amb, lis.

Ltac eval_goal := lazy -[TraceId_ToString Z.div Z.le Z.lt Z.ltb repeat].

(** A request on any endpoint, unfolded: the busy loop of cpu-spike has
    run out of fuel or left after some turns, the dependency has answered
    or failed. *)
Ltac meet_loop :=
  lazy -[TraceId_ToString Z.div Z.le Z.lt Z.ltb busy_wait];
  match goal with
  | |- context [busy_wait ?e ?f ?w] =>
      let w' := fresh "w'" in
      let k := fresh "k" in
      let Hrun := fresh "Hrun" in
      destruct (ApiSpec.busy_wait_shape e f w) as [[w' Hrun] | (k & _ & Hrun & _)];
      rewrite Hrun
  end;
  eval_goal.

Ltac meet_dependency :=
  eval_goal;
  match goal with
  | |- context [?get "http://unreachable-service.local:9999/api/data"] =>
      let status := fresh "status" in
      let ex := fresh "ex" in
      destruct (get "http://unreachable-service.local:9999/api/data") as [status|ex]
  end;
  eval_goal.

Ltac walk env e :=
  destruct e;
  [ by_cases env; eval_goal
  | by_cases env; eval_goal
  | by_cases env; eval_goal
  | by_cases env; eval_goal
  | by_cases env; eval_goal
  | by_cases env; meet_loop
  | by_cases env; eval_goal
  | by_cases env; meet_dependency
  | by_cases env; eval_goal
  | by_cases env; eval_goal
  | by_cases env; eval_goal
  | by_cases env; eval_goal ].

Lemma omap_repeat_none {A B : Type} (f : A -> option B) (x : A) (k : nat) :
  f x = None -> omap f (repeat x k) = [].
Proof. intros Hx. induction k as [|k IH]; cbn; [reflexivity|]. rewrite Hx. exact IH. Qed.

(** What the middleware does with any handler behind it: an answer passes
    untouched, no log entry added; an exception of any type becomes status
    500 with the envelope made of the type's name, the message and the trace
    id of the current activity, and one error entry in the log; nothing is
    thrown on. *)
Theorem exception_handler_passes_answers_and_catches_all
        (requestPath : string) (next : M Response) (w : World) :
  match next w with
  | (Done r, w') => exception_handler requestPath next w = (Done r, w')
  | (Raised ex, w') =>
      exists w'',
        exception_handler requestPath next w
        = (Done (mkResponse 500
                   (Some (PObject
                            [("error", JString (TypeName ex));
                             ("message", JString (Message ex));
                             ("traceId",
                              match current w' with
                              | Some h =>
                                  match activities w' !! h with
                                  | Some a => JString (TraceId_ToString (TraceId a))
                                  | None => JNull
                                  end
                              | None => JNull
                              end)]))), w'')
        /\ logs w'' = (logs w' ++ [mkLog LogError (Some ex) "Unhandled exception on {Path}"
                                         [ArgString requestPath]])%list
        /\ ops w'' = ops w'
        /\ current w'' = current w'
        /\ length (activities w'') = length (activities w')
  | (Diverged, w') => exception_handler requestPath next w = (Diverged, w')
  end.
Proof.
  unfold exception_handler, try_catch.
  destruct (next w) as [[r | ex | ] w']; try reflexivity.
  unfold bind, get_current, record_exception, bind, on_activity, log, modify, ret,
    trace_id_of, envelope.
  destruct (current w') as [h|] eqn:Hcur; cbn -[TraceId_ToString].
  - rewrite !list_lookup_alter_eq.
    destruct (activities w' !! h); cbn -[TraceId_ToString];
      eexists; repeat split; cbn; try exact Hcur; now rewrite ?length_alter.
  - eexists; repeat split. exact Hcur.
Qed.

(** Spans are scoped to the request: whatever the endpoint and however it
    ends, [Activity.Current] is afterwards what the host had set, the
    handler has started one activity when the source is sampled and none
    otherwise, that activity is stopped and is a child of the host's, and
    every activity belongs to the one trace of the request. *)
Theorem every_request_closes_its_span (env : Env) (fuel : nat) (e : Endpoint) :
  match invoke env fuel e with
  | (Diverged, _) => e = EpCpuSpike
  | (_, w) =>
      current w = current (initial env)
      /\ length (started env w) = (if listening env then 1 else 0)%nat
      /\ Forall (fun a => IsStopped a = true /\ Parent a = current (initial env))
                (started env w)
      /\ Forall (fun a => TraceId a = request_trace env) (activities w)
  end.
Proof.
  walk env e; repeat constructor.
Qed.

(** The log tells server errors apart: an answer of status 500 or more
    comes with exactly one entry at error level, which carries the exception
    whose message the envelope shows; any other answer comes with none. *)
Theorem server_errors_are_logged_once (env : Env) (fuel : nat) (e : Endpoint) :
  match invoke env fuel e with
  | (Done r, w) =>
      if is_server_error (StatusCode r)
      then exists ex template args p,
             errors_logged w = [mkLog LogError (Some ex) template args]
             /\ Body r = Some p
             /\ field "message" p = Some (JString (Message ex))
      else errors_logged w = []
  | (Raised _, _) => False
  | (Diverged, _) => e = EpCpuSpike
  end.
Proof.
  walk env e; try reflexivity; do 4 eexists; repeat split; reflexivity.
Qed.

(** Each simulation keeps to its own means: only timeout and slow-response
    wait (30 s and 5 s, once), only dependency-failure calls out (one GET to
    the unreachable address, under a 5 s timeout), only memory-spike
    allocates (50 arrays of 10 MB), only serialization-error serializes, and
    only cpu-spike draws random numbers. *)
Theorem each_endpoint_keeps_to_its_means (env : Env) (fuel : nat) (e : Endpoint) :
  match invoke env fuel e with
  | (Diverged, _) => e = EpCpuSpike
  | (_, w) =>
      delays w = match e with
                 | EpTimeout => [30000%Z]
                 | EpSlowResponse => [5000%Z]
                 | _ => []
                 end
      /\ outbound w = match e with
                      | EpDependencyFailure => [(dependency_url, 5%Z)]
                      | _ => []
                      end
      /\ allocated w = match e with
                       | EpMemorySpike => repeat (10 * 1024 * 1024)%Z 50
                       | _ => []
                       end
      /\ serialized w = match e with
                        | EpSerializationError => [fst circular_pair]
                        | _ => []
                        end
      /\ (e <> EpCpuSpike -> draws w = 0%nat)
  end.
Proof.
  walk env e; try reflexivity;
    repeat split; try reflexivity; try congruence;
    apply omap_repeat_none; reflexivity.
Qed.

(** With the source sampled, the span a handler starts tells how the
    request went: its status is Error exactly when the handler answers with
    another status than 200, and it carries one exception event exactly
    when the handler caught an exception, the event and the status
    description showing the message the envelope shows.  The span of
    unhandled-exception is left as it was started: unset, without event. *)
Theorem handler_span_mirrors_answer (env : Env) (fuel : nat) (e : Endpoint) :
  listening env = true ->
  match invoke env fuel e with
  | (Done r, w) =>
      exists a,
        started env w = [a]
        /\ match e with
           | EpUnhandledException => Status a = Unset /\ Events a = []
           | _ =>
               Status a = (if (StatusCode r =? 200)%Z then Unset else Error)
               /\ if catches_exception e && negb (StatusCode r =? 200)%Z
                  then exists type message stack p,
                         Events a
                         = [mkEvent "exception"
                              [("exception.type", TagString type);
                               ("exception.message", TagString message);
                               ("exception.stacktrace", TagString stack)]]
                         /\ StatusDescription a = Some message
                         /\ Body r = Some p
                         /\ field "message" p = Some (JString message)
                  else Events a = []
           end
  | (Raised _, _) => False
  | (Diverged, _) => e = EpCpuSpike
  end.
Proof.
  intros Hlis.
  walk env e; try discriminate Hlis; try reflexivity;
    eexists; (split; [reflexivity|]); (split; [reflexivity|]);
    try reflexivity; do 4 eexists; repeat split; reflexivity.
Qed.

Lemma handler_span_mirrors_answer_witness :
  exists r w a,
    invoke traced_env 0 EpSqlError = (Done r, w)
    /\ started traced_env w = [a]
    /\ Status a = Error
    /\ StatusDescription a
       = Some "Database connection failed: Unable to connect to server 'db-server:5432'. Connection refused.".
Proof.
  pose proof (handler_span_mirrors_answer traced_env 0 EpSqlError eq_refl) as H.
  destruct (invoke traced_env 0 EpSqlError) as [[r | ex | ] w] eqn:Hrun;
    [ | contradiction | discriminate H ].
  destruct H as (a & Hstarted & Hstatus & Hevents).
  vm_compute in Hrun. injection Hrun as <- <-.
  do 2 eexists. exists a. split; [reflexivity|]. split; [exact Hstarted|].
  split; [exact Hstatus|].
  destruct Hevents as (type & message & stack & p & _ & Hdesc & Hbody & Hmsg).
  injection Hbody as <-. injection Hmsg as <-. exact Hdesc.
Defined.

(** Tracing changes nothing but the trace id: on the same machine and
    network, an endpoint other than cpu-spike (which reads its stopwatch
    once more when it has a span to tag) gives the same status, the same
    body apart from traceId, the same log and the same calls, whether the
    request is traced or not and whatever its trace. *)
Theorem tracing_changes_only_the_trace_id
        (env : Env) (amb : option ActivityTraceId) (lis : bool) (fresh : ActivityTraceId)
        (fuel : nat) (e : Endpoint) :
  e <> EpCpuSpike ->
  match invoke env fuel e, invoke (retraced amb lis fresh env) fuel e with
  | (Done r1, w1), (Done r2, w2) =>
      StatusCode r1 = StatusCode r2
      /\ without_trace_id (Body r1) = without_trace_id (Body r2)
      /\ logs w1 = logs w2
      /\ ops w1 = ops w2
  | _, _ => False
  end.
Proof.
  intros Hne.
  destruct env as [amb0 lis0 fresh0 st hg sw now]. unfold retraced.
  cbn [ambient listening httpGet stopwatch freshTraceId stackTraceAt utcNow].
  destruct e; try congruence; destruct amb0, lis0, amb, lis; eval_goal;
    try (destruct (hg "http://unreachable-service.local:9999/api/data"); eval_goal);
    repeat split; reflexivity.
Qed.

Lemma tracing_changes_only_the_trace_id_witness :
  without_trace_id (Body (mkResponse 401
                            (Some (envelope "Unauthorized"
                                     "Invalid or missing authentication token"
                                     (JString (TraceId_ToString 255%N))))))
  = without_trace_id (Body (mkResponse 401
                              (Some (envelope "Unauthorized"
                                       "Invalid or missing authentication token" JNull)))).
Proof.
  assert (Hne : EpAuthFailure <> EpCpuSpike) by discriminate.
  exact (proj1 (proj2 (tracing_changes_only_the_trace_id
                         traced_env None false 7%N 0 EpAuthFailure Hne))).
Defined.

(** ** The busy loop without end *)

(** While the stopwatch stays below 3 seconds the loop does not leave. *)
Lemma busy_wait_stalls (env : Env) :
  (forall n, (stopwatch env n < 3 * TicksPerSecond)%Z) ->
  forall fuel w, exists w', busy_wait env fuel w = (Diverged, w').
Proof.
  intros Hlow fuel. induction fuel as [|f IH]; intros w.
  - eexists. reflexivity.
  - rewrite ApiSpec.busy_wait_turn.
    pose proof (Hlow (reads w)) as Hlt. apply Z.ltb_lt in Hlt. rewrite Hlt.
    apply IH.
Qed.

(** When cpu-spike answers, it has drawn one random number for every
    reading of the stopwatch below 3 seconds and has left its loop on the
    first reading that was not; it has then read the stopwatch three times
    more when it has a span to tag and twice otherwise, and the last
    reading, in whole milliseconds, is its durationMs. *)
Theorem cpu_spike_leaves_on_first_reading_of_3s
        (env : Env) (fuel : nat) (r : Response) (w : World) :
  invoke env fuel EpCpuSpike = (Done r, w) ->
  (forall j, (j < draws w)%nat -> (stopwatch env j < 3 * TicksPerSecond)%Z)
  /\ (3 * TicksPerSecond <= stopwatch env (draws w))%Z
  /\ reads w = (draws w + (if listening env then 4 else 3))%nat
  /\ exists p,
      Body r = Some p
      /\ field "durationMs" p
         = Some (JNumber (stopwatch env (reads w - 1) / TicksPerMillisecond)).
Proof.
  intros Hrun.
  by_cases env; lazy -[TraceId_ToString Z.div Z.le Z.lt Z.ltb busy_wait] in Hrun;
    match type of Hrun with
    | context [busy_wait ?e ?f ?w0] =>
        destruct (ApiSpec.busy_wait_first e f w0) as [[w' Hbw] | (k & Hbw & Hlow & Hhigh)];
        rewrite Hbw in Hrun
    end;
    lazy -[TraceId_ToString Z.div Z.le Z.lt Z.ltb repeat] in Hrun;
    try discriminate Hrun;
    injection Hrun as <- <-;
    unfold draws; cbn [ops reads Body]; rewrite ApiSpec.draws_of_turns;
    cbn [stopwatch reads Nat.add] in Hlow, Hhigh;
    (split; [exact Hlow|]); (split; [exact Hhigh|]);
    (split; [lia|]); eexists; (split; [reflexivity|]);
    lazy -[TraceId_ToString Z.div]; reflexivity.
Qed.

Lemma cpu_spike_leaves_on_first_reading_of_3s_witness :
  exists r w,
    invoke traced_env 4 EpCpuSpike = (Done r, w)
    /\ (3 * TicksPerSecond <= stopwatch traced_env (draws w))%Z
    /\ reads w = (draws w + 4)%nat.
Proof.
  destruct (invoke traced_env 4 EpCpuSpike) as [[r | ex | ] w] eqn:Hrun;
    [ | exfalso; vm_compute in Hrun; discriminate Hrun
      | exfalso; vm_compute in Hrun; discriminate Hrun ].
  exists r, w. split; [reflexivity|].
  destruct (cpu_spike_leaves_on_first_reading_of_3s traced_env 4 r w Hrun)
    as (_ & Hhigh & Hreads & _).
  split; [exact Hhigh | exact Hreads].
Defined.

(** While the stopwatch stays below 3 seconds cpu-spike gives no answer,
    however long it is followed. *)
Theorem cpu_spike_needs_the_clock_to_advance (env : Env) (fuel : nat) :
  (forall n, (stopwatch env n < 3 * TicksPerSecond)%Z) ->
  fst (invoke env fuel EpCpuSpike) = Diverged.
Proof.
  intros Hlow.
  by_cases env; lazy -[TraceId_ToString Z.div Z.le Z.lt Z.ltb busy_wait];
    match goal with
    | |- context [busy_wait ?e ?f ?w0] =>
        destruct (busy_wait_stalls e Hlow f w0) as [w' Hrun]; rewrite Hrun
    end; reflexivity.
Qed.

Lemma cpu_spike_needs_the_clock_to_advance_witness :
  fst (invoke stalled_env 1000 EpCpuSpike) = Diverged.
Proof.
  apply (cpu_spike_needs_the_clock_to_advance stalled_env 1000).
  intros n. reflexivity.
Defined.

End ApiMore.

(* ================================================================== *)
(** * Properties of the enricher                                       *)
(* ================================================================== *)

Module LoggingSpec.
Import Diagnostics.
Import Logging.

#[local] Set Warnings "-clear-no-such-hyp".

Lemma AddPropertyIfAbsent_keeps (name value : string) (properties : gmap string string)
      (k v : string) :
  properties !! k = Some v ->
  AddPropertyIfAbsent name value properties !! k = Some v.
Proof.
  intros Hk. unfold AddPropertyIfAbsent.
  destruct (properties !! name) eqn:Hname; [exact Hk|].
  rewrite lookup_insert_ne; [exact Hk|]. intros ->. congruence.
Qed.

Lemma AddPropertyIfAbsent_lookup (name value : string) (properties : gmap string string) :
  AddPropertyIfAbsent name value properties !! name
  = Some (default value (properties !! name)).
Proof.
  unfold AddPropertyIfAbsent.
  destruct (properties !! name) eqn:Hname; cbn; [exact Hname|].
  apply lookup_insert_eq.
Qed.

Lemma AddPropertyIfAbsent_other (name value : string) (properties : gmap string string)
      (k : string) :
  name <> k ->
  AddPropertyIfAbsent name value properties !! k = properties !! k.
Proof.
  intros Hne. unfold AddPropertyIfAbsent.
  destruct (properties !! name); [reflexivity|]. now apply lookup_insert_ne.
Qed.

Lemma AddPropertyIfAbsent_present (name value : string) (properties : gmap string string) :
  is_Some (properties !! name) ->
  AddPropertyIfAbsent name value properties = properties.
Proof. intros [v Hv]. unfold AddPropertyIfAbsent. now rewrite Hv. Qed.

Lemma AddPropertyIfAbsent_dom (name value : string) (properties : gmap string string) :
  dom (AddPropertyIfAbsent name value properties) = {[name]} ∪ dom properties.
Proof.
  unfold AddPropertyIfAbsent.
  destruct (properties !! name) eqn:Hname.
  - apply elem_of_dom_2 in Hname. set_solver.
  - apply dom_insert_L.
Qed.

Lemma SpanId_ToString_length (s : ActivitySpanId) :
  String.length (SpanId_ToString s) = 16%nat.
Proof. unfold SpanId_ToString. rewrite ApiSpec.to_hex_length. reflexivity. Qed.

(** The enricher fills in and never overwrites: a property the event has
    keeps its value (TraceId and SpanId included); afterwards the event has
    a TraceId and a SpanId, which, where the enricher set them, are 32 and 16
    characters long (all zeros without an activity); no other property
    appears; and enriching an enriched event changes nothing, whatever the
    activity then. *)
Theorem enricher_fills_in_and_never_overwrites
        (activity : option (ActivityTraceId * ActivitySpanId))
        (properties : gmap string string) :
  (forall k v, properties !! k = Some v -> Enrich activity properties !! k = Some v)
  /\ (exists t s,
        Enrich activity properties !! "TraceId" = Some t
        /\ Enrich activity properties !! "SpanId" = Some s
        /\ (properties !! "TraceId" = None -> String.length t = 32%nat)
        /\ (properties !! "SpanId" = None -> String.length s = 16%nat))
  /\ (activity = None ->
      properties !! "TraceId" = None ->
      Enrich activity properties !! "TraceId" = Some "00000000000000000000000000000000")
  /\ dom (Enrich activity properties) = {["TraceId"; "SpanId"]} ∪ dom properties
  /\ (forall activity', Enrich activity' (Enrich activity properties)
                        = Enrich activity properties).
Proof.
  unfold Enrich. split; [|split; [|split; [|split]]].
  - intros k v Hk. now do 2 apply AddPropertyIfAbsent_keeps.
  - do 2 eexists. split; [|split; [|split]].
    + apply AddPropertyIfAbsent_keeps. apply AddPropertyIfAbsent_lookup.
    + apply AddPropertyIfAbsent_lookup.
    + intros ->. cbn. destruct activity as [[t s]|]; [apply ApiSpec.TraceId_ToString_length|].
      reflexivity.
    + intros Hs. rewrite AddPropertyIfAbsent_other by discriminate. rewrite Hs. cbn.
      destruct activity as [[t s]|]; [apply SpanId_ToString_length | reflexivity].
  - intros -> Ht. apply AddPropertyIfAbsent_keeps.
    rewrite AddPropertyIfAbsent_lookup, Ht. reflexivity.
  - rewrite !AddPropertyIfAbsent_dom. set_solver.
  - intros activity'.
    set (m := AddPropertyIfAbsent "SpanId" _ (AddPropertyIfAbsent "TraceId" _ properties)).
    assert (Ht : is_Some (m !! "TraceId")).
    { eexists. apply AddPropertyIfAbsent_keeps. apply AddPropertyIfAbsent_lookup. }
    assert (Hs : is_Some (m !! "SpanId")).
    { eexists. apply AddPropertyIfAbsent_lookup. }
    rewrite (AddPropertyIfAbsent_present "TraceId" _ m Ht).
    apply AddPropertyIfAbsent_present. exact Hs.
Qed.

End LoggingSpec.

(* ================================================================== *)
(** * Further properties of the error interceptor                      *)
(* ================================================================== *)

Module InterceptorMore.
Import Js.
Import Interceptor.
Import Flow.

(** ** What each path writes *)

Lemma onUnhandledRejection_span (error : Value) (w : Window) :
  onUnhandledRejection error w
  = set_spans
      (spans w
         ++ [mkSpan "unhandled-promise-rejection"
                    (Some (ERROR, or_else (opt_get "message" error) (Str (ToString error))))
                    []
                    (if instanceof_Error error then [error] else [])
                    true]) w.
Proof.
  unfold onUnhandledRejection, startSpan, setStatus, recordException, end_span.
  rewrite InterceptorSpec.on_span_last.
  destruct (instanceof_Error error); rewrite ?InterceptorSpec.on_span_last; reflexivity.
Qed.

Lemma onError_span (el : Element) (w : Window) :
  passes_filter el = true ->
  onError (ElementTarget el) w
  = set_spans
      (spans w
         ++ [mkSpan "resource-load-failure"
                    (Some (ERROR,
                           Str ("Failed to load " ++ toLowerCase (tagName el) ++ ": "
                                  ++ ToString (or_else (src el) (href el)))))
                    [("resource.type", Str (toLowerCase (tagName el)));
                     ("resource.src",
                      or_else (src el) (or_else (href el) (Str "unknown")))]
                    []
                    true]) w.
Proof.
  unfold passes_filter, onError. intros ->.
  unfold startSpan, setStatus, setAttribute, end_span.
  rewrite !InterceptorSpec.on_span_last. reflexivity.
Qed.

Lemma handleError_span (error m : Value) (w : Window) :
  get "message" error = Some m ->
  handleError error w
  = (Returns,
     set_timers (timers w ++ [error])
       (set_spans
          (spans w
             ++ [mkSpan "uncaught-error" (Some (ERROR, or_else m (Str "Unknown error")))
                        [] [error] true]) w)).
Proof.
  intros Hm. unfold handleError, startSpan. rewrite Hm.
  unfold setStatus, recordException, end_span, setTimeout.
  rewrite !InterceptorSpec.on_span_last. reflexivity.
Qed.



Lemma nullish_has_no_message (error : Value) :
  nullish error = true <-> get "message" error = None.
Proof. destruct error; cbn; split; congruence. Qed.

(** [handleError] on null or undefined: reading the message throws before
    the span is ended.  The TypeError goes to the caller, nothing is
    reported, no timer is queued to throw the value again, and one span
    stays open. *)
Theorem handleError_loses_null_and_undefined (error : Value) (w : Window) :
  nullish error = true ->
  fst (handleError error w) = Throws (TypeError_reading "message" error)
  /\ reported (snd (handleError error w)) = reported w
  /\ timers (snd (handleError error w)) = timers w
  /\ length (spans (snd (handleError error w))) = S (length (spans w))
  /\ last (spans (snd (handleError error w)))
     = Some (mkSpan "uncaught-error" None [] [] false).
Proof.
  intros Hnull. apply nullish_has_no_message in Hnull.
  unfold handleError, startSpan. rewrite Hnull. cbn [fst snd].
  unfold reported, set_spans; cbn [spans timers].
  rewrite filter_app, filter_cons, filter_nil, !length_app, last_snoc.
  case_decide; [discriminate|]. cbn. repeat split; lia.
Qed.

Lemma handleError_loses_null_and_undefined_witness :
  fst (handleError Null installed) = Throws (TypeError_reading "message" Null)
  /\ reported (snd (handleError Null installed)) = reported installed.
Proof.
  destruct (handleError_loses_null_and_undefined Null installed eq_refl)
    as (Hthrows & Hreported & _).
  split; [exact Hthrows | exact Hreported].
Defined.

(** ** Events and the listeners of several handlers *)

Lemma set_spans_reported (x : Span) (w : Window) :
  ended x = true ->
  reported (set_spans (spans w ++ [x]) w) = S (reported w).
Proof.
  intros Hx. apply (InterceptorSpec.reported_one_more (spans w) x w Hx eq_refl).
Qed.

(** A listener called with an event writes [heard] spans when it is the
    one for the event's type, and touches neither timers nor listeners. *)
Lemma call_effect (l : Listener) (ev : Event) (w : Window) :
  timers (call l ev w) = timers w
  /\ listeners (call l ev w) = listeners w
  /\ (code l = OnUnhandledRejection -> event_type ev = "unhandledrejection" ->
      reported (call l ev w) = (heard ev + reported w)%nat)
  /\ (code l = OnError -> event_type ev = "error" ->
      reported (call l ev w) = (heard ev + reported w)%nat).
Proof.
  unfold call. destruct (code l).
  - rewrite onUnhandledRejection_span. repeat split; try discriminate.
    intros _ Hev. destruct ev; [|discriminate Hev].
    now rewrite set_spans_reported.
  - destruct ev as [reason | [ | el | ]]; cbn [heard];
      try (rewrite InterceptorSpec.onError_turns_away by exact I;
           repeat split; try discriminate; reflexivity).
    destruct (passes_filter el) eqn:Hpass.
    + rewrite (onError_span el w Hpass). repeat split; try discriminate.
      intros _ _. now rewrite set_spans_reported.
    + rewrite (InterceptorSpec.onError_turns_away (ElementTarget el) w Hpass).
      repeat split; try discriminate; reflexivity.
Qed.




(** ** Timers *)

Lemma deliver_keeps_timers (ev : Event) (l : list Registration) (w : Window) :
  timers (fold_left (fun w r => if hears r ev then call (callback r) ev w else w) l w)
  = timers w.
Proof.
  revert w. induction l as [|r l IH]; intros w; cbn [fold_left]; [reflexivity|].
  rewrite IH. destruct (hears r ev); [|reflexivity].
  apply (call_effect (callback r) ev w).
Qed.

(** A timer that fires leaves the queue, whatever listens. *)
Lemma timer_fires_pops (w : Window) :
  timers (step TimerFires w) = tail (timers w).
Proof.
  cbn [step]. destruct (timers w) as [|t rest] eqn:Hq; [now rewrite Hq|].
  unfold dispatchEvent. rewrite deliver_keeps_timers. reflexivity.
Qed.

Lemma run_app (a b : list Step) (w : Window) : run (a ++ b) w = run b (run a w).
Proof. unfold run. apply fold_left_app. Qed.

Lemma run_uncaught_queues (errors : list Value) (w : Window) :
  Forall (fun e => nullish e = false) errors ->
  timers (run (uncaught errors) w) = (timers w ++ errors)%list.
Proof.
  intros Hok. revert w. induction Hok as [|e errors He _ IH]; intros w.
  - cbn. now rewrite app_nil_r.
  - unfold uncaught, run in *. cbn [List.map fold_left step].
    rewrite IH.
    destruct (get "message" e) as [m|] eqn:Hm.
    + rewrite (handleError_span e m w Hm). cbn [snd timers set_timers].
      now rewrite <- app_assoc.
    + apply nullish_has_no_message in Hm. congruence.
Qed.

Lemma run_timers_drop (k : nat) (w : Window) :
  timers (run (repeat TimerFires k) w) = drop k (timers w).
Proof.
  revert w. induction k as [|k IH]; intros w; [now rewrite drop_0|].
  unfold run in *. cbn [repeat fold_left]. rewrite IH, timer_fires_pops.
  destruct (timers w); cbn [tail]; [now rewrite !drop_nil | reflexivity].
Qed.

Lemma reportable_uncaught_then_timers (errors : list Value) (k : nat) :
  length (List.filter reportable (uncaught errors ++ repeat TimerFires k))
  = length errors.
Proof.
  rewrite List.filter_app, length_app.
  replace (List.filter reportable (repeat TimerFires k)) with (@nil Step).
  - cbn [length]. rewrite Nat.add_0_r.
    unfold uncaught.
    induction errors as [|e errors IH];
      cbn [List.map List.filter reportable length]; [reflexivity | now rewrite IH].
  - induction k as [|k IH]; cbn; [reflexivity | exact IH].
Qed.

(** Every uncaught exception the handler is given (a value with
    properties) is thrown again once, in the order handled: the queue of
    timers holds the errors in that order, each timer that fires takes the
    oldest off, and whatever has fired by then, the exceptions were each
    reported once and the firing has reported nothing. *)
Theorem uncaught_errors_are_rethrown_in_order (errors : list Value) :
  Forall (fun e => nullish e = false) errors ->
  timers (run (uncaught errors) installed) = errors
  /\ (forall k, timers (run (uncaught errors ++ repeat TimerFires k) installed)
                = drop k errors)
  /\ (forall k, reported (run (uncaught errors ++ repeat TimerFires k) installed)
                = length errors).
Proof.
  intros Hok. split; [|split].
  - now rewrite run_uncaught_queues.
  - intros k. now rewrite run_app, run_timers_drop, run_uncaught_queues.
  - intros k.
    destruct (InterceptorSpec.run_reports (uncaught errors ++ repeat TimerFires k)
                installed eq_refl eq_refl) as (_ & _ & Hr).
    + apply Forall_app. split.
      * unfold uncaught. apply Forall_forall. intros s Hs e ->.
        apply list_elem_of_In, in_map_iff in Hs as (e' & Heq & Hin).
        injection Heq as ->. rewrite Forall_forall in Hok.
        apply Hok, list_elem_of_In, Hin.
      * apply Forall_forall. intros s Hs e ->.
        apply list_elem_of_In, repeat_spec in Hs. discriminate Hs.
    + rewrite Hr, reportable_uncaught_then_timers.
      change (reported installed) with 0%nat. lia.
Qed.

Lemma uncaught_errors_are_rethrown_in_order_witness :
  timers (run (uncaught [Str "first"; Err "Error" "second"]) installed)
  = [Str "first"; Err "Error" "second"].
Proof.
  apply (uncaught_errors_are_rethrown_in_order [Str "first"; Err "Error" "second"]).
  repeat constructor.
Defined.

(** ** The spans in the order of the occurrences *)






End InterceptorMore.

(* ================================================================== *)
(** * Further properties of the trigger layer                          *)
(* ================================================================== *)

Module UiMore.
Import Js.
Import Interceptor.
Import Ui.

Lemma findButton_unknown (i : string) (c : AppComponent) :
  i ∉ (id <$> (clientActions c ++ serverActions c)%list) ->
  findButton i c = None.
Proof.
  intros Hnot. unfold findButton.
  assert (Hc : list_find (fun a => id a = i) (clientActions c) = None).
  { apply list_find_None, Forall_forall. intros b Hb Hid. apply Hnot.
    apply list_elem_of_fmap. exists b. split; [now symmetry|].
    apply elem_of_app. now left. }
  assert (Hs : list_find (fun a => id a = i) (serverActions c) = None).
  { apply list_find_None, Forall_forall. intros b Hb Hid. apply Hnot.
    apply list_elem_of_fmap. exists b. split; [now symmetry|].
    apply elem_of_app. now right. }
  now rewrite Hc, Hs.
Qed.

(** An id no descriptor has: [setStatus] does nothing, not even a change
    detection.  [runHttp] still sends its request and [runClient] still runs
    its function and throws on what it throws, but neither they nor the
    callbacks leave a trace in the component. *)
Theorem unknown_id_leaves_the_component_alone (c : AppComponent) (i : string) :
  i ∉ (id <$> (clientActions c ++ serverActions c)%list) ->
  (forall s r, setStatus i s r c = c)
  /\ (forall obs,
        runHttp i obs c
        = mkApp (clientActions c) (serverActions c) (detectChanges c)
                (subscriptions c ++ [(i, obs)])%list)
  /\ (forall fn,
        after (runClient i fn c) = c
        /\ setOff (runClient i fn c) = aftermath fn
        /\ (forall e m, completion fn = Throws e -> get "message" e = Some m ->
              completed (runClient i fn c) = Throws e))
  /\ (forall res, snd (next i res c) = c)
  /\ (forall err, snd (error_ i err c) = c).
Proof.
  intros Hnot. pose proof (findButton_unknown i c Hnot) as Hfind.
  assert (Hset : forall s r, setStatus i s r c = c)
    by (intros s r; unfold setStatus; now rewrite Hfind).
  split; [exact Hset|]. split; [|split; [|split]].
  - intros obs. unfold runHttp. now rewrite Hset.
  - intros fn. unfold runClient. rewrite Hset.
    destruct (completion fn) as [|e]; [|destruct (get "message" e) as [m|] eqn:Hm];
      cbn [after setOff completed]; rewrite ?Hset; repeat split;
      intros e' m' He' Hm'; congruence.
  - intros res. unfold next.
    destruct (truthy _); [apply Hset|]. destruct (stringify res); [apply Hset|reflexivity].
  - intros err. unfold error_. cbn [snd]. apply Hset.
Qed.

Lemma unknown_id_leaves_the_component_alone_witness :
  setStatus "no-such-button" error (Str "lost") (initial Undefined) = initial Undefined.
Proof.
  apply (unknown_id_leaves_the_component_alone (initial Undefined) "no-such-button").
  apply (bool_decide_unpack _). vm_compute. reflexivity.
Defined.

(** An id a descriptor has: [setStatus] assigns status and summary to the
    descriptor [findButton] yields and runs one change detection; the client
    catalog is searched first, so with the id in it the server catalog stays
    as it is, whatever ids it holds. *)
Theorem known_id_is_assigned_once_client_first
        (c : AppComponent) (i : string) (s : ButtonStatus) (r : Value) :
  i ∈ (id <$> (clientActions c ++ serverActions c)%list) ->
  detectChanges (setStatus i s r c) = S (detectChanges c)
  /\ subscriptions (setStatus i s r c) = subscriptions c
  /\ (exists b b',
        button i c = Some b
        /\ button i (setStatus i s r c) = Some b'
        /\ b' = assign s r b)
  /\ (i ∈ (id <$> clientActions c) -> serverActions (setStatus i s r c) = serverActions c)
  /\ (i ∉ (id <$> clientActions c) -> clientActions (setStatus i s r c) = clientActions c).
Proof.
  intros Hin.
  assert (Hcases :
    (exists k b, list_find (fun a => id a = i) (clientActions c) = Some (k, b))
    \/ (list_find (fun a => id a = i) (clientActions c) = None
        /\ exists k b, list_find (fun a => id a = i) (serverActions c) = Some (k, b))).
  { destruct (list_find (fun a => id a = i) (clientActions c)) as [[k b]|] eqn:Hc;
      [left; eauto|].
    right. split; [reflexivity|].
    apply list_elem_of_fmap in Hin as (b & -> & Hb).
    apply elem_of_app in Hb as [Hb | Hb].
    - apply list_find_None in Hc. rewrite Forall_forall in Hc. now destruct (Hc b Hb).
    - destruct (list_find_elem_of (fun a => id a = id b) (serverActions c) b Hb eq_refl)
        as [[k b'] Hs]. eauto. }
  destruct Hcases as [(k & b & Hc) | (Hc & k & b & Hs)].
  - assert (Hb : button i c = Some b).
    { unfold button, findButton. rewrite Hc. cbn.
      now apply list_find_Some in Hc as (Hk & _). }
    unfold setStatus at 1 2 4 5. unfold findButton. rewrite Hc.
    cbn [detectChanges subscriptions serverActions clientActions].
    repeat split.
    + exists b, (assign s r b). split; [exact Hb|]. split; [|reflexivity].
      now apply UiSpec.button_setStatus.
    + intros Hnot. exfalso. apply Hnot. apply list_elem_of_fmap. exists b.
      apply list_find_Some in Hc as (Hk & Hid & _). split; [now symmetry|].
      now apply list_elem_of_lookup_2 in Hk.
  - assert (Hb : button i c = Some b).
    { unfold button, findButton. rewrite Hc, Hs. cbn.
      now apply list_find_Some in Hs as (Hk & _). }
    unfold setStatus at 1 2 4 5. unfold findButton. rewrite Hc, Hs.
    cbn [detectChanges subscriptions serverActions clientActions].
    repeat split.
    + exists b, (assign s r b). split; [exact Hb|]. split; [|reflexivity].
      now apply UiSpec.button_setStatus.
    + intros Hclient. exfalso.
      apply list_elem_of_fmap in Hclient as (b' & -> & Hb').
      apply list_find_None in Hc. rewrite Forall_forall in Hc. now destruct (Hc b' Hb').
Qed.

Lemma known_id_is_assigned_once_client_first_witness :
  detectChanges (setStatus "sql" loading Undefined (initial Undefined)) = 1%nat.
Proof.
  apply (known_id_is_assigned_once_client_first (initial Undefined) "sql").
  apply (bool_decide_unpack _). vm_compute. reflexivity.
Defined.












(** A function that throws null or undefined: [runClient] fails on reading
    the message; the descriptor stays in loading and the TypeError, not the
    thrown value, goes on to the caller. *)
Theorem runClient_stays_loading_on_thrown_null
        (c : AppComponent) (i : string) (fn : Outcome) (b : ActionButton) (e : Value) :
  button i c = Some b ->
  completion fn = Throws e ->
  nullish e = true ->
  completed (runClient i fn c) = Throws (TypeError_reading "message" e)
  /\ button i (after (runClient i fn c)) = Some (assign loading Undefined b).
Proof.
  intros Hb Hfn Hnull. unfold runClient. rewrite Hfn.
  assert (Hm : get "message" e = None) by (destruct e; try discriminate; reflexivity).
  rewrite Hm. cbn [completed after]. split; [reflexivity|].
  now apply UiSpec.button_setStatus.
Qed.

Lemma runClient_stays_loading_on_thrown_null_witness :
  completed (runClient "js-exception" (mkOutcome (Throws Null) []) (initial Undefined))
  = Throws (TypeError_reading "message" Null).
Proof.
  apply (runClient_stays_loading_on_thrown_null (initial Undefined) "js-exception"
           (mkOutcome (Throws Null) []) _ Null eq_refl eq_refl eq_refl).
Defined.

End UiMore.

(* ================================================================== *)
(** * Properties across the components                                 *)
(* ================================================================== *)

Module FlowSpec.
Import Js.
Import Interceptor.
Import Ui.
Import Flow.

(** The server buttons and the routes agree: button by button, in the order
    of the catalog, the URL requested is the base URL followed by the route
    of one endpoint with its "/api" taken off; every endpoint is met, and no
    two endpoints share a route.  Without a configured API_URL the base is
    "http://localhost:5215/api". *)
Theorem server_buttons_call_the_routes (windowEnv : Value) :
  Forall2 (fun b e =>
             exists route,
               Api.path e = "/api" ++ route
               /\ action b
                  = ViaRunHttp (id b) (HttpGet (ToString (API_BASE windowEnv) ++ route)))
          (serverActions (initial windowEnv)) Api.all_endpoints
  /\ NoDup (Api.path <$> Api.all_endpoints)
  /\ (forall e, e ∈ Api.all_endpoints)
  /\ (truthy (opt_get "API_URL" windowEnv) = false ->
      ToString (API_BASE windowEnv) = "http://localhost:5215/api").
Proof.
  split; [|split; [|split]].
  - cbn [serverActions initial]. unfold initial_serverActions, Api.all_endpoints.
    repeat (constructor; [eexists; split; reflexivity|]). constructor.
  - apply (bool_decide_unpack _). vm_compute. reflexivity.
  - intros e. unfold Api.all_endpoints. destruct e; set_solver.
  - intros Hnone. unfold API_BASE, or_else. rewrite Hnone. reflexivity.
Qed.

(** Each client-side simulation behind [runClient] ends as the one span it
    is there to produce: pressing its button, with the handler constructed
    once, leaves exactly one reported span, named after the kind of fault,
    and the timer that throws an exception again adds none and leaves the
    queue empty. *)
Theorem each_simulation_ends_in_its_span (c : AppComponent) (i : string) (fn : Simulation) :
  reported_names (run (snd (press (ViaRunClient i fn) c)) installed) = [expected_span fn]
  /\ reported_names (run (snd (press (ViaRunClient i fn) c) ++ [TimerFires]) installed)
     = [expected_span fn]
  /\ timers (run (snd (press (ViaRunClient i fn) c) ++ [TimerFires]) installed) = [].
Proof.
  destruct fn; cbn [press snd]; unfold runClient; cbn [simulate];
    (split; [|split]); reflexivity.
Qed.

(** ** From the answer to the descriptor *)

Lemma trace_id_not_empty (t : Diagnostics.ActivityTraceId) :
  String.eqb (Diagnostics.TraceId_ToString t) EmptyString = false.
Proof.
  pose proof (ApiSpec.TraceId_ToString_length t) as Hlen.
  destruct (Diagnostics.TraceId_ToString t); [discriminate Hlen | reflexivity].
Qed.

(** Reading a property of a parsed body is reading the field of the body. *)
Lemma lookup_parsed (k : string) (date : Z -> string)
      (fields : list (string * Api.JsonValue)) :
  lookup_field k (List.map (fun kv => (fst kv, js_of_json date (snd kv))) fields)
  = match Api.field k (Api.PObject fields) with
    | Some v => js_of_json date v
    | None => Undefined
    end.
Proof.
  unfold lookup_field, Api.field.
  induction fields as [|[k' v] fields IH]; cbn [List.map List.find fst snd]; [reflexivity|].
  destruct (String.eqb k' k); [reflexivity | exact IH].
Qed.

Lemma answered_success_traced (date : Z -> string) (failure i : string)
      (c : AppComponent) (r : Api.Response) (fields : list (string * Api.JsonValue))
      (hex : string) :
  Api.Body r = Some (Api.PObject fields) ->
  Api.StatusCode r = 200%Z ->
  Api.field "traceId" (Api.PObject fields) = Some (Api.JString hex) ->
  String.eqb hex EmptyString = false ->
  answered date failure i r c
  = Some (Returns, setStatus i success (Str ("TraceId: " ++ hex)) c).
Proof.
  intros Hbody Hstatus Htrace Hhex.
  unfold answered. rewrite Hbody, Hstatus. cbn [parsed Z.leb Z.ltb Z.compare andb].
  change ((200 <=? 200)%Z && (200 <? 300)%Z) with true. cbn match.
  unfold next, opt_get. cbn [get]. rewrite lookup_parsed, Htrace. cbn [js_of_json].
  destruct hex as [|ch hex]; [discriminate Hhex|]. reflexivity.
Qed.

Lemma answered_success_untraced (date : Z -> string) (failure i : string)
      (c : AppComponent) (r : Api.Response) (fields : list (string * Api.JsonValue)) :
  Api.Body r = Some (Api.PObject fields) ->
  Api.StatusCode r = 200%Z ->
  Api.field "traceId" (Api.PObject fields) = Some Api.JNull ->
  exists text,
    answered date failure i r c = Some (Returns, setStatus i success (Str text) c).
Proof.
  intros Hbody Hstatus Htrace.
  unfold answered. rewrite Hbody, Hstatus. cbn [parsed].
  change ((200 <=? 200)%Z && (200 <? 300)%Z) with true. cbn match.
  unfold next, opt_get. cbn [get]. rewrite lookup_parsed, Htrace. cbn [js_of_json].
  unfold or_else. cbn [truthy String.eqb negb stringify].
  eexists. reflexivity.
Qed.

Lemma answered_failure (date : Z -> string) (failure i : string)
      (c : AppComponent) (r : Api.Response) (fields : list (string * Api.JsonValue))
      (message : string) (tid : Api.JsonValue) :
  Api.Body r = Some (Api.PObject fields) ->
  (200 <=? Api.StatusCode r)%Z && (Api.StatusCode r <? 300)%Z = false ->
  Api.field "message" (Api.PObject fields) = Some (Api.JString message) ->
  Api.field "traceId" (Api.PObject fields) = Some tid ->
  match tid with
  | Api.JString hex => String.eqb hex EmptyString = false
  | Api.JNull => True
  | _ => False
  end ->
  answered date failure i r c
  = Some (Returns,
          setStatus i error
            (let shown := or_else (Str message)
                            (or_else (Str failure) (Str "Request failed")) in
             match tid with
             | Api.JString hex => Str (ToString shown ++ " | TraceId: " ++ hex)
             | _ => shown
             end) c).
Proof.
  intros Hbody Hstatus Hmessage Htrace Htid.
  unfold answered. rewrite Hbody, Hstatus. cbn [parsed].
  unfold error_, HttpErrorResponse, opt_get.
  cbn [get lookup_field List.find fst snd String.eqb Ascii.eqb Bool.eqb].
  rewrite !lookup_parsed, Hmessage, Htrace. cbn [js_of_json].
  destruct tid as [ | hex | | ]; try contradiction.
  - reflexivity.
  - destruct hex as [|ch hex]; [discriminate Htid|]. reflexivity.
Qed.

Ltac by_cases env :=
  destruct env as [amb lis fresh st hg sw now];
  cbn [Api.ambient Api.listening Api.httpGet Api.stopwatch Api.freshTraceId] in *;
  destruct amb, lis.

Ltac follow :=
  lazy -[Diagnostics.TraceId_ToString answered or_else ToString next setStatus button
         assign Api.busy_wait Z.div Z.le Z.lt Z.ltb repeat].

(** From the answer to the descriptor: whatever endpoint but timeout has
    answered with a body, the callbacks of [runHttp] leave the descriptor in
    success for status 200 and in error otherwise, and with a trace id in
    the body the summary shows exactly that id: "TraceId: " and the id on
    success, the message, " | TraceId: " and the id on error.  (Should the
    body's message be empty, the client's own text takes its place.) *)
Theorem descriptor_shows_the_trace_id_of_the_answer
        (env : Api.Env) (fuel : nat) (e : Api.Endpoint)
        (date : Z -> string) (failure : string)
        (c : AppComponent) (i : string) (b : ActionButton) :
  button i c = Some b ->
  e <> Api.EpTimeout ->
  match Api.invoke env fuel e with
  | (Api.Done r, _) =>
      match Api.Body r with
      | Some p =>
          exists c',
            answered date failure i r c = Some (Returns, c')
            /\ if (Api.StatusCode r =? 200)%Z
               then exists text,
                      button i c' = Some (assign success (Str text) b)
                      /\ forall t, Api.reporting_trace env e = Some t ->
                                   text = "TraceId: " ++ Diagnostics.TraceId_ToString t
               else exists message,
                      Api.field "message" p = Some (Api.JString message)
                      /\ let shown := or_else (Str message)
                                        (or_else (Str failure) (Str "Request failed")) in
                         button i c'
                         = Some (assign error
                                   match Api.reporting_trace env e with
                                   | Some t =>
                                       Str (ToString shown ++ " | TraceId: "
                                              ++ Diagnostics.TraceId_ToString t)
                                   | None => shown
                                   end b)
      | None => answered date failure i r c = Some (next i Null c)
      end
  | _ => True
  end.
Proof.
  intros Hb Hne.
  destruct e; try congruence; by_cases env; follow.
  all: try match goal with
           | |- context [Api.busy_wait ?e ?f ?w] =>
               let w' := fresh "w'" in
               let k := fresh "k" in
               let Hrun := fresh "Hrun" in
               destruct (ApiSpec.busy_wait_shape e f w) as [[w' Hrun] | (k & _ & Hrun & _)];
               rewrite Hrun; follow
           end.
  all: try match goal with
           | |- context [match ?get "http://unreachable-service.local:9999/api/data" with _ => _ end] =>
               destruct (get "http://unreachable-service.local:9999/api/data");
               follow
           end.
  all: try exact I.
  all: try reflexivity.
  all: first
         [ (* status 200, a trace id in the body *)
           eexists;
           (split; [eapply answered_success_traced;
                    [reflexivity | reflexivity | reflexivity | apply trace_id_not_empty]|]);
           eexists; (split; [apply UiSpec.button_setStatus; eassumption|]);
           intros t Ht; injection Ht as <-; reflexivity
         | (* status 200, traceId null *)
           match goal with
           | |- context [answered ?d ?f ?j ?r ?cc] =>
               let text := fresh "text" in
               let Htext := fresh "Htext" in
               destruct (answered_success_untraced d f j cc r _
                           eq_refl eq_refl eq_refl) as [text Htext];
               eexists; (split; [exact Htext|]);
               exists text; (split; [apply UiSpec.button_setStatus; eassumption|]);
               intros t Ht; discriminate Ht
           end
         | (* any other status *)
           eexists;
           (split; [eapply answered_failure;
                    [reflexivity | reflexivity | reflexivity | reflexivity
                    | first [apply trace_id_not_empty | exact I]]|]);
           eexists; (split; [reflexivity|]);
           cbv zeta; apply UiSpec.button_setStatus; eassumption ].
Qed.

Lemma descriptor_shows_the_trace_id_of_the_answer_witness :
  exists c',
    answered (fun _ => EmptyString) "Http failure response" "forbidden"
             (Api.mkResponse 403
                (Some (Api.envelope "Forbidden"
                         "You do not have permission to access this resource. Required role: Admin"
                         (Api.JString (Diagnostics.TraceId_ToString 255%N)))))
             (initial Undefined)
    = Some (Returns, c')
    /\ exists b',
         button "forbidden" c' = Some b'
         /\ status b' = error
         /\ response b'
            = Str ("You do not have permission to access this resource. Required role: Admin"
                     ++ " | TraceId: " ++ "000000000000000000000000000000ff").
Proof.
  assert (Hne : Api.EpForbidden <> Api.EpTimeout) by discriminate.
  destruct (descriptor_shows_the_trace_id_of_the_answer
              Api.traced_env 0 Api.EpForbidden (fun _ => EmptyString)
              "Http failure response" (initial Undefined) "forbidden" _ eq_refl Hne)
    as (c' & Hanswered & message & Hmessage & Hbutton).
  exists c'. split; [exact Hanswered|].
  eexists. split; [exact Hbutton|]. split; [reflexivity|].
  injection Hmessage as <-. vm_compute. reflexivity.
Defined.

End FlowSpec.
